(** * The petpet index builder, embedded and verified

    A shallow embedding of the TypeScript index builder
    (tools/index-builder: utils, fonts-info, old-template-builder,
    template-builder and the entry script) together with the properties
    stated about it.

    Conventions of the embedding:
    - a JavaScript string is a [string] of 8-bit characters; lower-casing
      and the regular expressions act on the ASCII range;
    - a plain object used as a dictionary is a [gmap string V] holding its
      own enumerable properties, written through [obj_set];
    - code that may throw (or a promise that may reject) returns [res A];
      a batch awaited with Promise.all is run in listing order;
    - the collaborators (file digest, JSON parser, script evaluation, font
      parser) and the failures of fs.writeFileSync are parameters of the
      development;
    - a template script is run by a direct eval inside the callback of
      buildTemplateIndex, so the variable [metadata] of the callback is in
      its reach: a script is described by what it does to that variable,
      through the hook or by assigning it. *)

From Stdlib Require Import ZArith Lia Ascii String List.
From stdpp Require Import base option list strings gmap.

Local Open Scope string_scope.
#[local] Arguments String.append !_ _ / : simpl nomatch.
Set Warnings "-register-all,-clear-no-such-hyp".

(** ** Exceptions and rejected promises *)

Inductive error :=
  | EIO (code : string)      (* fs failure: ENOENT, EACCES, EISDIR, ... *)
  | ESyntaxError             (* JSON.parse on malformed text *)
  | ETypeError               (* property read or call on undefined / null *)
  | EScript                  (* exception escaping a template script *)
  | EFont.                   (* fontkit cannot parse the file *)

Inductive res (A : Type) :=
  | Ok (a : A)
  | Throw (e : error).
Arguments Ok {A} a.
Arguments Throw {A} e.

#[global] Instance res_ret : MRet res := @Ok.
#[global] Instance res_bind : MBind res := λ A B f m,
  match m with Ok a => f a | Throw e => Throw e end.

Definition is_ok {A} (r : res A) : bool :=
  match r with Ok _ => true | Throw _ => false end.

(** [await Promise.all(items.map(f))] where every [f] mutates a shared
    accumulator: the callbacks are run one after the other. *)
Fixpoint forEachM {A S} (f : S → A → res S) (l : list A) (s : S) : res S :=
  match l with
  | [] => Ok s
  | x :: l' => s' ← f s x; forEachM f l' s'
  end.

(** [Promise.all(items.map(f))] collecting the results. *)
Fixpoint allM {A B} (f : A → res B) (l : list A) : res (list B) :=
  match l with
  | [] => Ok []
  | x :: l' => y ← f x; ys ← allM f l'; Ok (y :: ys)
  end.

(** ** JavaScript values *)

Inductive value :=
  | VUndefined
  | VNull
  | VBool (b : bool)
  | VNum (n : Z)
  | VNaN
  | VStr (s : string)
  | VArr (items : list value)
  | VObj (props : list (string * value)).

(** ToBoolean. *)
Definition truthy (v : value) : bool :=
  match v with
  | VUndefined | VNull | VNaN => false
  | VBool b => b
  | VNum n => negb (Z.eqb n 0)
  | VStr s => negb (String.eqb s "")
  | VArr _ | VObj _ => true
  end.

Fixpoint assoc {V} (k : string) (l : list (string * V)) : option V :=
  match l with
  | [] => None
  | (k', v) :: l' => if String.eqb k k' then Some v else assoc k l'
  end.

(** [v.k] for the property names the builder reads (metadata, elements,
    text, type, font, alias, inRandomList, hidden), none of which is
    defined on a built-in prototype: reading them from a primitive or an
    array gives undefined, from undefined or null throws. *)
Definition get (v : value) (k : string) : res value :=
  match v with
  | VUndefined | VNull => Throw ETypeError
  | VObj props => Ok (default VUndefined (assoc k props))
  | _ => Ok VUndefined
  end.

(** [o[k] = v] on an object created by the literal [{}], seen through its
    own enumerable properties (what Object.entries and JSON.stringify
    read).  The key __proto__ is not an own property: the assignment runs
    the accessor inherited from Object.prototype, which replaces the
    prototype when [v] is an object and does nothing otherwise.  Either
    way no own property appears. *)
Definition obj_set {V} (k : string) (v : V) (o : gmap string V) : gmap string V :=
  if decide (k = "__proto__") then o else <[k := v]> o.

(** [[...new Set(l)]]: first occurrences, in order. *)
Fixpoint uniq_from {A} `{EqDecision A} (seen l : list A) : list A :=
  match l with
  | [] => []
  | x :: l' =>
      if decide (x ∈ seen) then uniq_from seen l'
      else x :: uniq_from (x :: seen) l'
  end.

Definition uniq {A} `{EqDecision A} (l : list A) : list A := uniq_from [] l.

(** ** Strings *)

Definition lower_char (c : ascii) : ascii :=
  let n := nat_of_ascii c in
  if (65 <=? n)%nat && (n <=? 90)%nat then ascii_of_nat (n + 32) else c.

Fixpoint toLowerCase (s : string) : string :=
  match s with
  | EmptyString => EmptyString
  | String c s' => String (lower_char c) (toLowerCase s')
  end.

Definition is_digit (c : ascii) : bool :=
  let n := nat_of_ascii c in (48 <=? n)%nat && (n <=? 57)%nat.

(** Characters the regular-expression dot refuses. *)
Definition is_line_terminator (c : ascii) : bool :=
  let n := nat_of_ascii c in (n =? 10)%nat || (n =? 13)%nat.

Definition font_exts : list string := ["woff"; "eot"; "woff2"; "ttf"].

(** [s.match(/.+\.(woff|eot|woff2|ttf)/)] is not null.  The pattern is not
    anchored: a match may start anywhere, needs one character accepted by
    the dot, then a full stop and one of the alternatives. *)
Fixpoint match_font (s : string) : bool :=
  match s with
  | EmptyString => false
  | String c s' =>
      (negb (is_line_terminator c)
       && existsb (λ e, String.prefix ("." ++ e) s') font_exts)
      || match_font s'
  end.

(** [s.match(/\d\.png/)] is not null. *)
Fixpoint match_frame (s : string) : bool :=
  match s with
  | EmptyString => false
  | String c s' => (is_digit c && String.prefix ".png" s') || match_frame s'
  end.

(** path.join on two segments (normalisation of dots and repeated
    separators is left out; the builder only joins plain names). *)
Definition path_join (a b : string) : string := a ++ "/" ++ b.

(** ** The file system *)

(** A regular file with its bytes, or a directory with its listing.  A
    file that cannot be opened still answers stat. *)
Inductive node :=
  | File (readable : bool) (content : string)
  | Dir (entries : list (string * node)).

Definition stat_size (content : string) : N := N.of_nat (String.length content).

Definition readFileSync (nd : node) : res string :=
  match nd with
  | File true c => Ok c
  | File false _ => Throw (EIO "EACCES")
  | Dir _ => Throw (EIO "EISDIR")
  end.

Definition readdir (d : option (list (string * node))) : res (list (string * node)) :=
  match d with
  | Some es => Ok es
  | None => Throw (EIO "ENOENT")
  end.

(** fs.existsSync(path.join(dir, name)): the name occurs in the listing. *)
Definition existsSync (es : list (string * node)) (name : string) : bool :=
  bool_decide (name ∈ es.*1).

(** {resource, size} as built by filesMd5. *)
Record hashes := Hashes {
  resource : gmap string string;
  hsize : N
}.

(** ** An independent walk of a directory tree *)

(** A path found below the entry [name] of a directory. *)
Definition under (name : string) (found : string * string) : string * string :=
  (name ++ "/" ++ found.1, found.2).

(** The regular files below a directory, each with its slash-joined path
    relative to that directory and its bytes. *)
Fixpoint walk_at (nd : node) : list (string * string) :=
  match nd with
  | File _ _ => []
  | Dir files =>
      concat
        (map (λ entry : string * node,
                let '(name, sub) := entry in
                match sub with
                | File _ content => [(name, content)]
                | Dir _ => map (under name) (walk_at sub)
                end)
             files)
  end.

Definition walk (files : list (string * node)) : list (string * string) :=
  walk_at (Dir files).

Definition total_size (found : list (string * string)) : N :=
  foldr (λ f acc, stat_size f.2 + acc)%N 0%N found.

Fixpoint has_slash (s : string) : bool :=
  match s with
  | EmptyString => false
  | String c s' => Ascii.eqb c "/" || has_slash s'
  end.

(** The part of a path before its first slash. *)
Fixpoint first_segment (s : string) : string :=
  match s with
  | EmptyString => EmptyString
  | String c s' => if Ascii.eqb c "/" then EmptyString
                   else String c (first_segment s')
  end.

(** A tree as a file system lists it and as the hasher can read it: the
    names of a directory are distinct and free of slashes, every file can
    be read, and no regular file is called __proto__. *)
Inductive ordinary : list (string * node) → Prop :=
  | ordinary_nil : ordinary []
  | ordinary_file name content files :
      has_slash name = false → name ≠ "__proto__" → name ∉ files.*1 →
      ordinary files →
      ordinary ((name, File true content) :: files)
  | ordinary_dir name sub files :
      has_slash name = false → name ∉ files.*1 →
      ordinary sub → ordinary files →
      ordinary ((name, Dir sub) :: files).

Section Builder.

(** hash.digest('hex') of a byte sequence *)
Variable md5_hex : string → string.

(** *** utils *)

Definition md5 (nd : node) : res string :=
  match nd with
  | File true c => Ok (md5_hex c)
  | File false _ => Throw (EIO "EACCES")
  | Dir _ => Throw (EIO "EISDIR")
  end.

(** The loop over Object.entries(childHashes.resource). *)
Definition rekey (file : string) (child : gmap string string)
    (into : gmap string string) : gmap string string :=
  foldr (λ '(name, hash) acc, obj_set (file ++ "/" ++ name) hash acc)
        into (map_to_list child).

(** filesMd5 on the directory [nd]; the function given to the loop is
    the callback of files.map, acting on the shared [result]. *)
Fixpoint filesMd5_at (nd : node) : res hashes :=
  match nd with
  | File _ _ => Throw (EIO "ENOTDIR")
  | Dir files =>
      forEachM
        (λ (result : hashes) (entry : string * node),
           let '(file, sub) := entry in
           match sub with
           | Dir _ =>
               childHashes ← filesMd5_at sub;
               Ok (Hashes (rekey file (resource childHashes) (resource result))
                          (hsize result + hsize childHashes))
           | File _ content =>
               h ← md5 sub;
               Ok (Hashes (obj_set file h (resource result))
                          (hsize result + stat_size content))
           end)
        files (Hashes ∅ 0)
  end.

Definition filesMd5 (files : list (string * node)) : res hashes :=
  filesMd5_at (Dir files).

(** The callback of files.map by itself, on the shared result. *)
Definition hash_entry (result : hashes) (entry : string * node) : res hashes :=
  let '(file, sub) := entry in
  match sub with
  | Dir files =>
      childHashes ← filesMd5 files;
      Ok (Hashes (rekey file (resource childHashes) (resource result))
                 (hsize result + hsize childHashes))
  | File _ content =>
      h ← md5 sub;
      Ok (Hashes (obj_set file h (resource result))
                 (hsize result + stat_size content))
  end.

Definition digest (found : string * string) : string * string :=
  (found.1, md5_hex found.2).

(** The map the walk leads one to expect. *)
Definition expected (files : list (string * node)) : gmap string string :=
  list_to_map (digest <$> walk files).

(** *** fonts-info *)

(** What fontkit exposes of an opened font: the four name strings, each
    present or absent. *)
Record Font := {
  familyName : option string;
  fullName : option string;
  postscriptName : option string;
  subfamilyName : option string
}.

(** fontkit.open on the bytes of a file; [None] when they are no font. *)
Variable fontkit_open : string → option Font.

(** [n.toLowerCase()] on a name that may be missing. *)
Definition name_toLowerCase (n : option string) : res string :=
  match n with
  | Some s => Ok (toLowerCase s)
  | None => Throw ETypeError
  end.

(** Returns the [name] array of the info object. *)
Definition getFontInfo (nd : node) : res (list string) :=
  bytes ← readFileSync nd;
  font ← match fontkit_open bytes with Some f => Ok f | None => Throw EFont end;
  names ← allM name_toLowerCase
             [familyName font; fullName font; postscriptName font; subfamilyName font];
  Ok (uniq names).

(** *** Configuration, inputs and outputs *)

Record Config := {
  basePath : string;
  path : string;
  fontsPath : string;
  oldTargetVersion : Z;
  targetVersion : string
}.

(** process.cwd() *)
Variable rootDir : string.

(** JSON.parse; [None] stands for a SyntaxError. *)
Variable JSON_parse : string → option value.

(** The two directories the builders list: the templates directory and
    the fonts directory below the base path ([None]: no such directory). *)
Record world := {
  templatesDir : option (list (string * node));
  fontsDir : option (list (string * node))
}.

Record fontEntry := {
  f_md5 : string;
  f_size : N;
  f_name : list string
}.

(** The object a template callback returns; [t_id] is deleted once the
    object has been filed under its id. *)
Record template := {
  t_type : string;
  t_id : option string;
  t_metadata : value;
  t_resource : gmap string string;
  t_size : N;
  t_dependentFonts : option (list (option string))
}.

(** The objects handed to JSON.stringify, one shape per output file. *)
Inductive document :=
  | IndexJson (version : Z) (dataPath : string)
              (dataList fontList : list string)
  | IndexMapJson (lengthMap : gmap string nat)
                 (aliasMap typeMap : gmap string value)
  | PetpetIndexJson (templatesPath : string) (templatesMap : gmap string template)
                    (fontsPath' : string) (fontsObj : gmap string fontEntry).

(** *** old-template-builder *)

Record oldMaps := {
  lengthMap : gmap string nat;
  aliasMap : gmap string value;
  typeMap : gmap string value
}.

(** [v ?? d] *)
Definition nullish (v d : value) : value :=
  match v with
  | VUndefined | VNull => d
  | _ => v
  end.

Definition parse (text : string) : res value :=
  match JSON_parse text with
  | Some v => Ok v
  | None => Throw ESyntaxError
  end.

(** The callback of the filter over the templates directory: updates the
    three maps and tells whether the entry is kept. *)
Definition oldTemplate (m : oldMaps) (entry : string * node) : res (oldMaps * bool) :=
  let '(template, nd) := entry in
  match nd with
  | File _ _ => Ok (m, false)
  | Dir files =>
      match assoc "data.json" files with
      | None => Ok (m, false)
      | Some dataFile =>
          let frames := length (List.filter (λ f, match_frame f.1) files) in
          text ← readFileSync dataFile;
          templateData ← parse text;
          alias ← get templateData "alias";
          type ← get templateData "type";
          Ok ({| lengthMap := obj_set template frames (lengthMap m);
                 aliasMap := obj_set template (nullish alias (VArr [])) (aliasMap m);
                 typeMap := obj_set template (nullish type (VStr "Unknown")) (typeMap m) |},
              true)
      end
  end.

Fixpoint oldTemplates (l : list (string * node)) (m : oldMaps)
    : res (oldMaps * list string) :=
  match l with
  | [] => Ok (m, [])
  | entry :: l' =>
      r ← oldTemplate m entry;
      r' ← oldTemplates l' r.1;
      Ok (r'.1, if (r.2 : bool) then entry.1 :: r'.2 else r'.2)
  end.

Definition buildOldTemplateIndex (config : Config) (w : world)
    : res (gmap string document) :=
  let basePath := path_join rootDir (basePath config) in
  entries ← readdir (templatesDir w);
  r ← oldTemplates entries (Build_oldMaps ∅ ∅ ∅);
  let m := r.1 in
  let oldTemplatesList := r.2 in
  fontFiles ← readdir (fontsDir w);
  let fontList := List.filter match_font (fontFiles.*1) in
  Ok (<[path_join basePath "index.map.json" :=
          IndexMapJson (lengthMap m) (aliasMap m) (typeMap m)]>
      (<[path_join basePath "index.json" :=
          IndexJson (oldTargetVersion config) (path config) oldTemplatesList fontList]>
       ∅)).

(** *** template-builder *)

Definition SCRIPT_NAME := "main.js".
Definition TEMPLATE_NAME := "template.json".
Definition OLD_TEMPLATE_NAME := "data.json".

(** A write to the variable [metadata] of the callback while a script
    runs.  The script is evaluated by a direct eval inside the callback,
    so the variable is in its scope: it is written by the hook
    ([metadata = callback(runtimeInfo)], with what the callback returned)
    and by any assignment the script makes itself. *)
Inductive write :=
  | Registered (returned : value)
  | Assigned (v : value).

Definition written (w : write) : value :=
  match w with Registered v | Assigned v => v end.

(** What evaluating a script does to the callback: it throws, or it
    finishes having written [metadata] some number of times, in this
    order.  Of the other names in its scope, the script is taken to leave
    what the builder goes on to read ([id], the font index, the fonts
    object, the configuration) and the file system as they are. *)
Inductive script_outcome :=
  | ScriptThrows
  | ScriptReturns (writes : list write).

(** [metadata] once the script has finished: undefined unless written. *)
Definition metadataAfter (writes : list write) : value :=
  default VUndefined (written <$> last writes).

(** eval of the wrapped script source in the scope of the callback, with
    the register hook as its argument. *)
Variable eval_script : string → script_outcome.

(** require of a JSON file. *)
Definition require (nd : node) : res value :=
  text ← readFileSync nd; parse text.

Fixpoint filterM {A} (p : A → res bool) (l : list A) : res (list A) :=
  match l with
  | [] => Ok []
  | x :: l' =>
      b ← p x; r ← filterM p l'; Ok (if (b : bool) then x :: r else r)
  end.

(** [e.type === 'text' && e.font], as a condition *)
Definition is_text_with_font (e : value) : res bool :=
  ty ← get e "type";
  match ty with
  | VStr s =>
      if String.eqb s "text" then (f ← get e "font"; Ok (truthy f)) else Ok false
  | _ => Ok false
  end.

(** [t.font], as a condition *)
Definition has_font (t : value) : res bool :=
  f ← get t "font"; Ok (truthy f).

(** [fontMap.get(e.font.toLowerCase())]; undefined is [None]. *)
Definition lookup_font (fontMap : gmap string string) (e : value)
    : res (option string) :=
  f ← get e "font";
  match f with
  | VStr s => Ok (fontMap !! toLowerCase s)
  | _ => Throw ETypeError
  end.

(** [[...new Set(arr?.filter(keep)?.map(lookup))]] *)
Definition search (keep : value → res bool) (fontMap : gmap string string)
    (arr : value) : res (list (option string)) :=
  match arr with
  | VUndefined | VNull => Ok (uniq [])
  | VArr items =>
      kept ← filterM keep items;
      found ← allM (lookup_font fontMap) kept;
      Ok (uniq found)
  | _ => Throw ETypeError
  end.

Definition searchTemplateDependencyFont (fontMap : gmap string string)
    (template : value) : res (list (option string)) :=
  elements ← get template "elements";
  search is_text_with_font fontMap elements.

Definition searchOldTemplateDependencyFont (fontMap : gmap string string)
    (template : value) : res (list (option string)) :=
  text ← get template "text";
  search has_font fontMap text.

(** [if (dependentFonts.length) res.dependentFonts = dependentFonts] *)
Definition attach (dependentFonts : list (option string))
    : option (list (option string)) :=
  if (length dependentFonts =? 0)%nat then None else Some dependentFonts.

(** The script branch. *)
Definition scriptTemplate (id : string) (files : list (string * node))
    (script : node) : res (option template) :=
  scriptContent ← readFileSync script;
  match eval_script scriptContent with
  | ScriptThrows => Throw EScript
  | ScriptReturns writes =>
      let metadata := metadataAfter writes in
      if negb (truthy metadata) then Ok None
      else
        h ← filesMd5 files;
        Ok (Some {| t_type := "script"; t_id := Some id; t_metadata := metadata;
                    t_resource := resource h; t_size := hsize h;
                    t_dependentFonts := None |})
  end.

(** The template.json branch. *)
Definition jsonTemplate (fontMap : gmap string string) (id : string)
    (files : list (string * node)) (file : node) : res (option template) :=
  template ← require file;
  metadata ← get template "metadata";
  h ← filesMd5 files;
  dependentFonts ← searchTemplateDependencyFont fontMap template;
  Ok (Some {| t_type := "template"; t_id := Some id; t_metadata := metadata;
              t_resource := resource h; t_size := hsize h;
              t_dependentFonts := attach dependentFonts |}).

(** The data.json branch. *)
Definition oldJsonTemplate (fontMap : gmap string string) (id : string)
    (files : list (string * node)) (file : node) : res (option template) :=
  template ← require file;
  alias ← get template "alias";
  inRandomList ← get template "inRandomList";
  hidden ← get template "hidden";
  h ← filesMd5 files;
  dependentFonts ← searchOldTemplateDependencyFont fontMap template;
  Ok (Some {| t_type := "template"; t_id := Some id;
              t_metadata := VObj [("apiVersion", VNum 0); ("alias", alias);
                                  ("inRandomList", inRandomList);
                                  ("hidden", hidden)];
              t_resource := resource h; t_size := hsize h;
              t_dependentFonts := attach dependentFonts |}).

(** The callback mapped over the templates directory; null and undefined
    are both [None].  Each [assoc] is an existsSync test together with the
    read of the same path that follows it. *)
Definition templateOf (fontMap : gmap string string) (entry : string * node)
    : res (option template) :=
  let '(id, info) := entry in
  match info with
  | File _ _ => Ok None
  | Dir files =>
      match assoc SCRIPT_NAME files with
      | Some script => scriptTemplate id files script
      | None =>
          match assoc TEMPLATE_NAME files with
          | Some file => jsonTemplate fontMap id files file
          | None =>
              match assoc OLD_TEMPLATE_NAME files with
              | Some file => oldJsonTemplate fontMap id files file
              | None => Ok None
              end
          end
      end
  end.

(** The failures an entry of the templates directory can cause: a script
    that throws, a definition that is not JSON, a file that cannot be
    read (the script itself, or any file of a directory that does produce
    an entry and therefore gets hashed). *)
Inductive template_fails : string * node → Prop :=
  | throwing_script id files scriptContent :
      assoc SCRIPT_NAME files = Some (File true scriptContent) →
      eval_script scriptContent = ScriptThrows →
      template_fails (id, Dir files)
  | malformed_template id files text :
      assoc SCRIPT_NAME files = None →
      assoc TEMPLATE_NAME files = Some (File true text) →
      JSON_parse text = None →
      template_fails (id, Dir files)
  | malformed_old_template id files text :
      assoc SCRIPT_NAME files = None →
      assoc TEMPLATE_NAME files = None →
      assoc OLD_TEMPLATE_NAME files = Some (File true text) →
      JSON_parse text = None →
      template_fails (id, Dir files)
  | unreadable_script id files content :
      assoc SCRIPT_NAME files = Some (File false content) →
      template_fails (id, Dir files)
  | unreadable_template id files content :
      assoc SCRIPT_NAME files = None →
      assoc TEMPLATE_NAME files = Some (File false content) →
      template_fails (id, Dir files)
  | unreadable_old_template id files content :
      assoc SCRIPT_NAME files = None →
      assoc TEMPLATE_NAME files = None →
      assoc OLD_TEMPLATE_NAME files = Some (File false content) →
      template_fails (id, Dir files)
  | unreadable_script_resource id files scriptContent writes name content :
      assoc SCRIPT_NAME files = Some (File true scriptContent) →
      eval_script scriptContent = ScriptReturns writes →
      truthy (metadataAfter writes) = true →
      (name, File false content) ∈ files →
      template_fails (id, Dir files)
  | unreadable_template_resource id files text props name content :
      assoc SCRIPT_NAME files = None →
      assoc TEMPLATE_NAME files = Some (File true text) →
      JSON_parse text = Some (VObj props) →
      (name, File false content) ∈ files →
      template_fails (id, Dir files).

(** The callback mapped over the font files. *)
Definition indexFont (st : gmap string string * gmap string fontEntry)
    (entry : string * node) : res (gmap string string * gmap string fontEntry) :=
  let '(fontNameMap, resultFontObj) := st in
  let '(font, nd) := entry in
  fontContent ← readFileSync nd;
  info ← getFontInfo nd;
  let fontNameMap := foldl (λ m n, <[n := font]> m) fontNameMap info in
  h ← md5 nd;
  Ok (fontNameMap,
      obj_set font {| f_md5 := h; f_size := stat_size fontContent; f_name := info |}
              resultFontObj).

(** [map[template.id] = template; delete template.id] *)
Definition file_template (map : gmap string template) (t : template)
    : gmap string template :=
  obj_set (default "undefined" (t_id t))
          {| t_type := t_type t; t_id := None; t_metadata := t_metadata t;
             t_resource := t_resource t; t_size := t_size t;
             t_dependentFonts := t_dependentFonts t |}
          map.

Definition buildTemplateIndex (config : Config) (w : world)
    : res (gmap string document) :=
  let basePath := path_join rootDir (basePath config) in
  fontFiles ← readdir (fontsDir w);
  st ← forEachM indexFont (List.filter (λ e, match_font e.1) fontFiles) (∅, ∅);
  let fontNameMap := st.1 in
  let resultFontObj := st.2 in
  ids ← readdir (templatesDir w);
  templatesList ← allM (templateOf fontNameMap) ids;
  let templatesList := omap (λ t, t) templatesList in
  let map := foldl file_template ∅ templatesList in
  Ok {[ path_join basePath "petpet-index.json" :=
          PetpetIndexJson (path config) map (fontsPath config) resultFontObj ]}.

(** *** The entry script *)

(** The keys of the objects the two builders return, in the order their
    literals list them; a [gmap] does not keep that order, and the loop of
    the entry script follows it. *)
Definition oldKeys (config : Config) : list string :=
  let basePath := path_join rootDir (basePath config) in
  [path_join basePath "index.json"; path_join basePath "index.map.json"].

Definition newKeys (config : Config) : list string :=
  let basePath := path_join rootDir (basePath config) in
  [path_join basePath "petpet-index.json"].

(** The error fs.writeFileSync throws at a path, if it throws there (a
    read-only file, a directory at the path, a missing parent directory);
    a write that fails leaves the path as it was. *)
Variable write_error : string → option error.

Definition writeFileSync (p : string) (data : document)
    (disk : gmap string document) : res (gmap string document) :=
  match write_error p with
  | None => Ok (<[p := data]> disk)
  | Some e => Throw e
  end.

(** [for (const path in results) fs.writeFileSync(path, results[path])]
    over the keys in insertion order: the loop stops at the first write
    that throws, and what was written before it stays written.  Returns
    how the loop ended and the files on disk. *)
Fixpoint writeAll (keys : list string) (results disk : gmap string document)
    : res unit * gmap string document :=
  match keys with
  | [] => (Ok (), disk)
  | p :: keys' =>
      match results !! p with
      | None => writeAll keys' results disk
      | Some data =>
          match writeFileSync p data disk with
          | Ok disk' => writeAll keys' results disk'
          | Throw e => (Throw e, disk)
          end
      end
  end.

(** Runs both builders, spreads their results into one object (the keys
    of the first, then the new keys of the second, whose values win), then
    writes; returns how the run ended and the files on disk. *)
Definition main (config : Config) (w : world) (disk : gmap string document)
    : res unit * gmap string document :=
  match (old ← buildOldTemplateIndex config w;
         new ← buildTemplateIndex config w;
         Ok (new ∪ old)) with
  | Ok results =>
      writeAll (uniq (oldKeys config ++ newKeys config)%list) results disk
  | Throw e => (Throw e, disk)
  end.

End Builder.

(** * Vocabulary of the properties *)

(** What the unanchored pattern accepts, said without the scanner: some
    character other than a line terminator is followed by a full stop and
    one of the four extensions; anything may come before and after. *)
Definition font_pattern (s : string) : Prop :=
  ∃ before c e after,
    s = before ++ String c ("." ++ e ++ after)
    ∧ is_line_terminator c = false
    ∧ e ∈ font_exts.

(** Two strings that differ only in letter case: position by position the
    characters are equal, or one is a capital A..Z and the other the
    matching small letter. *)
Definition case_pair (a b : ascii) : Prop :=
  ∃ n, (65 ≤ n ≤ 90)%nat ∧ a = ascii_of_nat n ∧ b = ascii_of_nat (n + 32).

Inductive same_ignoring_case : string → string → Prop :=
  | sic_nil : same_ignoring_case "" ""
  | sic_same c s t :
      same_ignoring_case s t → same_ignoring_case (String c s) (String c t)
  | sic_up a b s t :
      case_pair a b → same_ignoring_case s t →
      same_ignoring_case (String a s) (String b t)
  | sic_down a b s t :
      case_pair a b → same_ignoring_case s t →
      same_ignoring_case (String b s) (String a t).

Definition text_element (font : string) : value :=
  VObj [("type", VStr "text"); ("font", VStr font)].

Definition template_with (fonts : list string) : value :=
  VObj [("metadata", VObj []); ("elements", VArr (text_element <$> fonts))].

(** The world without one entry of the templates directory. *)
Definition without_entry (w : world) (pre post : list (string * node)) : world :=
  {| templatesDir := Some (pre ++ post)%list; fontsDir := fontsDir w |}.

(** What [ordinary] asks of one entry of a listing. *)
Definition ordinary_entry (entry : string * node) : Prop :=
  has_slash entry.1 = false
  ∧ match entry.2 with
    | File readable _ => readable = true ∧ entry.1 ≠ "__proto__"
    | Dir sub => ordinary sub
    end.

(** A legacy template: a directory in which data.json exists. *)
Definition is_legacy (entry : string * node) : bool :=
  match entry.2 with
  | File _ _ => false
  | Dir files => existsSync files OLD_TEMPLATE_NAME
  end.

(** The number of entries of a directory the frame pattern accepts. *)
Definition frames (files : list (string * node)) : nat :=
  length (List.filter (λ f, match_frame f.1) files).

(** The three legacy maps agree at a name / all have the name. *)
Definition same_at (m m' : oldMaps) (name : string) : Prop :=
  lengthMap m' !! name = lengthMap m !! name
  ∧ aliasMap m' !! name = aliasMap m !! name
  ∧ typeMap m' !! name = typeMap m !! name.

Definition all_at (m : oldMaps) (name : string) : Prop :=
  is_Some (lengthMap m !! name)
  ∧ is_Some (aliasMap m !! name)
  ∧ is_Some (typeMap m !! name).

Definition none_at (m : oldMaps) (name : string) : Prop :=
  lengthMap m !! name = None
  ∧ aliasMap m !! name = None
  ∧ typeMap m !! name = None.


(** ** Sample inputs *)

(** A font whose name table has no subfamily entry. *)
Definition no_subfamily : Font :=
  {| familyName := Some "Arial"; fullName := Some "Arial Bold";
     postscriptName := Some "Arial-Bold"; subfamilyName := None |}.

Definition arial : Font :=
  {| familyName := Some "Arial"; fullName := Some "Arial";
     postscriptName := Some "ArialMT"; subfamilyName := Some "Regular" |}.

Definition sample_config : Config :=
  {| basePath := "data"; path := "templates"; fontsPath := "fonts";
     oldTargetVersion := 3; targetVersion := "1.0" |}.

(** A parser that knows four texts. *)
Definition sample_parse (text : string) : option value :=
  if String.eqb text "{}" then Some (VObj [("metadata", VObj [("x", VNum 1)])])
  else if String.eqb text "legacy"
  then Some (VObj [("alias", VArr [VStr "f"]); ("type", VStr "Fun")])
  else if String.eqb text "caption" then Some (template_with ["Arial"])
  else None.

(** Scripts by what they do to [metadata]. *)
Definition sample_eval (scriptContent : string) : script_outcome :=
  if String.eqb scriptContent "register(() => 0)"
  then ScriptReturns [Registered (VNum 0)]
  else if String.eqb scriptContent "register(() => ({}))"
  then ScriptReturns [Registered (VObj [])]
  else if String.eqb scriptContent "metadata = {name: 'sneaky'}"
  then ScriptReturns [Assigned (VObj [("name", VStr "sneaky")])]
  else if String.eqb scriptContent "register(() => 0); metadata = {name: 'late'}"
  then ScriptReturns [Registered (VNum 0); Assigned (VObj [("name", VStr "late")])]
  else if String.eqb scriptContent "throw 1" then ScriptThrows
  else ScriptReturns [].

Definition foo_template : string * node :=
  ("foo", Dir [("template.json", File true "{}"); ("a.png", File true "png")]).

Definition sample_build :=
  buildTemplateIndex (λ s, s) (λ _, None) "/repo" sample_parse sample_eval
    sample_config.

(** A disk on which every write succeeds, and one on which index.map.json
    cannot be written. *)
Definition sample_main :=
  main (λ s, s) (λ _, None) "/repo" sample_parse sample_eval (λ _, None)
    sample_config.

Definition readonly_map (p : string) : option error :=
  if String.eqb p "/repo/data/index.map.json" then Some (EIO "EACCES") else None.

(** Script templates that assign [metadata] themselves. *)
Definition sneaky_world : world :=
  {| templatesDir :=
       Some [foo_template;
             ("sneaky", Dir [("main.js", File true "metadata = {name: 'sneaky'}")])];
     fontsDir := Some [] |}.

Definition late_world : world :=
  {| templatesDir :=
       Some [("late", Dir [("main.js",
                            File true "register(() => 0); metadata = {name: 'late'}")]);
             foo_template];
     fontsDir := Some [] |}.

Definition silent_world : world :=
  {| templatesDir :=
       Some [foo_template; ("silent", Dir [("main.js", File true "1 + 1")])];
     fontsDir := Some [] |}.


Definition broken_world : world :=
  {| templatesDir :=
       Some [foo_template;
             ("broken", Dir [("template.json", File true "{oops")])];
     fontsDir := Some [] |}.

(** The legacy template of the scenario: data.json and two frames. *)
Definition legacy_files (text : string) : list (string * node) :=
  [("data.json", File true text); ("1.png", File true "one");
   ("2.png", File true "two")].

Definition legacy_world (name text : string) : world :=
  {| templatesDir := Some [(name, Dir (legacy_files text))];
     fontsDir := Some [] |}.

(** A templates directory with a stray file, a legacy template that states
    neither alias nor type, and a script template. *)
Definition mixed_entries : list (string * node) :=
  [("readme.txt", File true "hello");
   ("bare", Dir [("data.json", File true "{}"); ("10.png", File true "p")]);
   ("scripted", Dir [("main.js", File true "register(() => ({}))")])].

Definition mixed_world : world :=
  {| templatesDir := Some mixed_entries;
     fontsDir := Some [("a.ttf", Dir []); ("notes.txt", File true "n")] |}.

(** A script template that also holds a data.json no parser accepts. *)
Definition torn_world : world :=
  {| templatesDir :=
       Some [("torn", Dir [("main.js", File true "register(() => ({}))");
                           ("data.json", File true "{oops")])];
     fontsDir := Some [] |}.

(** A font parser that knows two byte sequences. *)
Definition sample_fontkit (bytes : string) : option Font :=
  if String.eqb bytes "ttf:arial" then Some arial
  else if String.eqb bytes "ttf:nosub" then Some no_subfamily
  else None.

Definition font_build :=
  buildTemplateIndex (λ s, s) sample_fontkit "/repo" sample_parse sample_eval
    sample_config.

Definition font_files : list (string * node) :=
  [("notes.txt", File true "n"); ("arial.ttf", File true "ttf:arial")].

Definition font_world : world :=
  {| templatesDir := Some [foo_template]; fontsDir := Some font_files |}.


Definition junk_font_world : world :=
  {| templatesDir := Some [foo_template];
     fontsDir := Some [("arial.ttf", File true "ttf:arial");
                       ("junk.woff2", File true "not a font")] |}.

(** * Properties *)

(** ** Generic facts *)

Lemma bind_ok {A B} (m : res A) (f : A → res B) (b : B) :
  m ≫= f = Ok b → ∃ a, m = Ok a ∧ f a = Ok b.
Proof. destruct m as [a|e]; simpl; [eauto | discriminate]. Qed.

Lemma assoc_Some_elem {V} (k : string) (l : list (string * V)) (v : V) :
  assoc k l = Some v → (k, v) ∈ l.
Proof.
  induction l as [|[k' v'] l IH]; simpl; [discriminate |].
  destruct (String.eqb_spec k k') as [->|Hne].
  - intros [= ->]. left.
  - intros H. right. auto.
Qed.

Lemma assoc_None {V} (k : string) (l : list (string * V)) :
  assoc k l = None ↔ k ∉ l.*1.
Proof.
  induction l as [|[k' v'] l IH]; simpl.
  - split; [intros _; apply not_elem_of_nil | done].
  - destruct (String.eqb_spec k k') as [->|Hne].
    + split; [discriminate | intros H; destruct H; left].
    + rewrite IH, not_elem_of_cons. tauto.
Qed.

Lemma existsSync_assoc (es : list (string * node)) (name : string) :
  existsSync es name = true ↔ is_Some (assoc name es).
Proof.
  unfold existsSync. rewrite bool_decide_eq_true.
  destruct (assoc name es) as [nd|] eqn:E.
  - split; [eauto | intros _].
    apply assoc_Some_elem in E. apply list_elem_of_fmap. by exists (name, nd).
  - apply assoc_None in E. split; [done | intros [? [=]]].
Qed.

(** ** Sets built by spreading a Set *)

Section Uniq.
Context {A : Type} `{EqDecision A}.

Lemma elem_of_uniq_from (seen l : list A) (x : A) :
  x ∈ uniq_from seen l ↔ x ∈ l ∧ x ∉ seen.
Proof.
  revert seen. induction l as [|y l IH]; intros seen; simpl.
  - split; [intros H; inversion H | intros [H _]; inversion H].
  - destruct (decide (y ∈ seen)) as [Hin|Hout].
    + rewrite IH, elem_of_cons. split; [naive_solver |].
      intros [[->|H] Hs]; [done | auto].
    + rewrite !elem_of_cons, IH, not_elem_of_cons.
      split.
      * intros [->|[H [Hne Hs]]]; auto.
      * intros [[->|H] Hs]; [auto |].
        destruct (decide (x = y)) as [->|Hne]; auto.
Qed.

Lemma NoDup_uniq_from (seen l : list A) : NoDup (uniq_from seen l).
Proof.
  revert seen. induction l as [|y l IH]; intros seen; simpl.
  - constructor.
  - destruct (decide (y ∈ seen)); [apply IH |].
    constructor; [| apply IH].
    rewrite elem_of_uniq_from, not_elem_of_cons. naive_solver.
Qed.

Lemma elem_of_uniq (l : list A) (x : A) : x ∈ uniq l ↔ x ∈ l.
Proof.
  unfold uniq. rewrite elem_of_uniq_from.
  split; [naive_solver | intros H; split; [done | apply not_elem_of_nil]].
Qed.

Lemma NoDup_uniq (l : list A) : NoDup (uniq l).
Proof. apply NoDup_uniq_from. Qed.

Lemma uniq_nil_iff (l : list A) : uniq l = [] ↔ l = [].
Proof.
  split; [| intros ->; reflexivity].
  destruct l as [|x l]; [done |]. unfold uniq. simpl. discriminate.
Qed.

End Uniq.

(** ** Strings *)

Lemma prefix_true_iff (p s : string) :
  String.prefix p s = true ↔ ∃ rest, s = p ++ rest.
Proof.
  revert s. induction p as [|c p IH]; intros s.
  - split; [intros _; by exists s | intros _; by destruct s].
  - destruct s as [|d s]; simpl; [split; [done | intros [? [=]]] |].
    destruct (Ascii.ascii_dec c d) as [->|Hne].
    + rewrite IH. split; intros [rest H]; exists rest; simpl in *; congruence.
    + split; [done | intros [rest H]; simpl in H; congruence].
Qed.

Lemma existsb_font_ext (s : string) :
  existsb (λ e, String.prefix ("." ++ e) s) font_exts = true
  ↔ ∃ e after, s = "." ++ e ++ after ∧ e ∈ font_exts.
Proof.
  rewrite existsb_exists. split.
  - intros (e & Hin & Hp). apply prefix_true_iff in Hp as [after ->].
    exists e, after. split; [done | by apply list_elem_of_In].
  - intros (e & after & -> & Hin). exists e. split; [by apply list_elem_of_In |].
    apply prefix_true_iff. exists after. simpl. done.
Qed.

Lemma match_font_cons (c : ascii) (s : string) :
  match_font (String c s)
  = (negb (is_line_terminator c)
     && existsb (λ e, String.prefix ("." ++ e) s) font_exts)
    || match_font s.
Proof. reflexivity. Qed.

Lemma match_font_spec (s : string) : match_font s = true ↔ font_pattern s.
Proof.
  induction s as [|c s IH].
  - split; [done |]. intros (b & c & e & a & H & _). by destruct b.
  - rewrite match_font_cons.
    rewrite orb_true_iff, andb_true_iff, negb_true_iff, existsb_font_ext, IH.
    split.
    + intros [[Hc (e & after & -> & He)] | (b & c' & e & a & -> & Hc & He)].
      * by exists "", c, e, after.
      * by exists (String c b), c', e, a.
    + intros (b & c' & e & a & H & Hc & He). destruct b as [|d b]; simpl in H.
      * injection H as -> ->. left. eauto.
      * injection H as -> ->. right. by exists b, c', e, a.
Qed.

Lemma lower_char_pair (a b : ascii) :
  case_pair a b → lower_char a = b ∧ lower_char b = b.
Proof.
  intros (n & Hn & -> & ->). unfold lower_char.
  rewrite !nat_ascii_embedding by lia.
  replace ((65 <=? n)%nat) with true by (symmetry; apply Nat.leb_le; lia).
  replace ((n <=? 90)%nat) with true by (symmetry; apply Nat.leb_le; lia).
  replace ((n + 32 <=? 90)%nat) with false by (symmetry; apply Nat.leb_gt; lia).
  rewrite andb_false_r. done.
Qed.

Lemma toLowerCase_ignores_case (s t : string) :
  same_ignoring_case s t → toLowerCase s = toLowerCase t.
Proof.
  induction 1 as [|c s t _ IH|a b s t Hp _ IH|a b s t Hp _ IH]; simpl.
  - done.
  - by rewrite IH.
  - apply lower_char_pair in Hp as [-> ->]. by rewrite IH.
  - apply lower_char_pair in Hp as [-> ->]. by rewrite IH.
Qed.

Lemma toLowerCase_idemp (s : string) : toLowerCase (toLowerCase s) = toLowerCase s.
Proof.
  induction s as [|c s IH]; simpl; [done |]. rewrite IH. f_equal.
  unfold lower_char at 1.
  destruct ((65 <=? nat_of_ascii (lower_char c))%nat
            && (nat_of_ascii (lower_char c) <=? 90)%nat) eqn:E; [| done].
  exfalso. apply andb_true_iff in E as [E1 E2].
  apply Nat.leb_le in E1, E2. unfold lower_char in E1, E2.
  destruct ((65 <=? nat_of_ascii c)%nat && (nat_of_ascii c <=? 90)%nat) eqn:F.
  - apply andb_true_iff in F as [F1 F2]. apply Nat.leb_le in F1, F2.
    rewrite nat_ascii_embedding in E2 by lia. lia.
  - apply andb_false_iff in F as [F|F]; apply Nat.leb_gt in F; lia.
Qed.

(** ** The font indexer *)

(** C4, at the inputs it names: the pattern that selects font files is not
    anchored at the end of the name, so [a.ttf.bak] and [a.woffX] are both
    selected, by the filter of either builder, next to a genuine [b.ttf];
    a name that only has the extension is not. *)
Theorem match_font_accepts_inner_extension :
  match_font "a.ttf.bak" = true
  ∧ match_font "a.woffX" = true
  ∧ List.filter match_font ["a.ttf.bak"; "readme.txt"; "a.woffX"; "b.ttf"; ".ttf"]
    = ["a.ttf.bak"; "a.woffX"; "b.ttf"].
Proof. repeat split; reflexivity. Qed.

(** Names with a proper final extension are selected. *)
Lemma match_font_suffix (stem e : string) (c : ascii) :
  is_line_terminator c = false → e ∈ font_exts →
  match_font (stem ++ String c ("." ++ e)) = true.
Proof.
  intros Hc He. apply match_font_spec. exists stem, c, e, "".
  repeat split; [| done | done]. f_equal. f_equal. simpl. f_equal.
  clear. induction e as [|d e IH]; simpl; [done | by rewrite <- IH].
Qed.

Section FontInfo.
Variable fontkit_open : string → option Font.

Lemma name_toLowerCase_all (a b c d : string) :
  allM name_toLowerCase [Some a; Some b; Some c; Some d]
  = Ok (toLowerCase <$> [a; b; c; d]).
Proof. reflexivity. Qed.

Lemma name_toLowerCase_absent (l : list (option string)) :
  None ∈ l → allM name_toLowerCase l = Throw ETypeError.
Proof.
  induction l as [|[s|] l IH]; intros Hin; simpl.
  - inversion Hin.
  - rewrite IH; [done |]. apply elem_of_cons in Hin as [?|?]; done.
  - done.
Qed.

Lemma getFontInfo_open (bytes : string) (font : Font) :
  fontkit_open bytes = Some font →
  getFontInfo fontkit_open (File true bytes)
  = (lowered ← allM name_toLowerCase
                 [familyName font; fullName font; postscriptName font;
                  subfamilyName font];
     Ok (uniq lowered)).
Proof. intros Hopen. unfold getFontInfo. simpl. by rewrite Hopen. Qed.

(** C5, as the code has it: getFontInfo lower-cases all four names without
    looking whether they are there.  When the four names are present it
    returns them lower-cased, each once; when any of them is absent the
    lower-casing throws and getFontInfo fails. *)
Theorem getFontInfo_names (bytes : string) (font : Font) :
  fontkit_open bytes = Some font →
  let names := [familyName font; fullName font; postscriptName font;
                subfamilyName font] in
  (∀ a b c d, names = [Some a; Some b; Some c; Some d] →
     ∃ result, getFontInfo fontkit_open (File true bytes) = Ok result
       ∧ NoDup result
       ∧ ∀ x, x ∈ result ↔ x ∈ toLowerCase <$> [a; b; c; d])
  ∧ (None ∈ names →
     getFontInfo fontkit_open (File true bytes) = Throw ETypeError).
Proof.
  intros Hopen names. rewrite (getFontInfo_open _ _ Hopen). fold names.
  split.
  - intros a b c d ->. rewrite name_toLowerCase_all.
    eexists. split; [reflexivity |]. split; [apply NoDup_uniq |].
    intros x. apply elem_of_uniq.
  - intros Habs. by rewrite name_toLowerCase_absent.
Qed.

End FontInfo.

(** C5 as stated fails: with one name absent getFontInfo does not return
    the three present names, it throws. *)
Lemma getFontInfo_absent_name_throws :
  getFontInfo (λ _, Some no_subfamily) (File true "font bytes")
  = Throw ETypeError.
Proof. reflexivity. Qed.

Lemma getFontInfo_names_witness :
  (∃ result, getFontInfo (λ _, Some arial) (File true "font bytes") = Ok result
     ∧ NoDup result
     ∧ ∀ x, x ∈ result ↔ x ∈ ["arial"; "arial"; "arialmt"; "regular"])
  ∧ getFontInfo (λ _, Some no_subfamily) (File true "font bytes")
    = Throw ETypeError.
Proof.
  split.
  - apply (proj1 (getFontInfo_names (λ _, Some arial) "font bytes" arial eq_refl)
             "Arial" "Arial" "ArialMT" "Regular").
    reflexivity.
  - apply (proj2 (getFontInfo_names (λ _, Some no_subfamily) "font bytes"
                    no_subfamily eq_refl)).
    simpl. do 3 right. left.
Defined.

(** ** Font dependencies of a template *)

Lemma allM_ok {A B} (f : A → res B) (l : list A) (ys : list B) :
  allM f l = Ok ys → Forall2 (λ x y, f x = Ok y) l ys.
Proof.
  revert ys. induction l as [|x l IH]; intros ys; simpl.
  - intros [= <-]. constructor.
  - intros H. apply bind_ok in H as (y & Hy & H).
    apply bind_ok in H as (ys' & Hys & [= <-]). constructor; auto.
Qed.


Lemma filterM_ok {A} (p : A → res bool) (l r : list A) :
  filterM p l = Ok r →
  ∀ x, x ∈ r ↔ x ∈ l ∧ p x = Ok true.
Proof.
  revert r. induction l as [|y l IH]; intros r; simpl.
  - intros [= <-] x. split; [intros H; inversion H | intros [H _]; inversion H].
  - intros H. apply bind_ok in H as (b & Hb & H).
    apply bind_ok in H as (r' & Hr & [= <-]). specialize (IH _ Hr).
    intros x. destruct b.
    + rewrite !elem_of_cons, IH. split; [| tauto].
      intros [->|[? ?]]; auto.
    + rewrite elem_of_cons, IH. split; [tauto |].
      intros [[->|?] Hx]; [congruence | auto].
Qed.

(** What the search returns whenever it returns: no value twice, and every
    file name in it is a value of the font-name index.  (A reference the
    index does not know contributes undefined, see below.) *)
Lemma search_ok (keep : value → res bool) (fontMap : gmap string string)
    (arr : value) (deps : list (option string)) :
  search keep fontMap arr = Ok deps →
  NoDup deps ∧ ∀ f, Some f ∈ deps → ∃ k, fontMap !! k = Some f.
Proof.
  unfold search. destruct arr as [| | | | | |items|]; try discriminate.
  - intros [= <-]. split; [constructor | intros f H; inversion H].
  - intros [= <-]. split; [constructor | intros f H; inversion H].
  - intros H. apply bind_ok in H as (kept & _ & H).
    apply bind_ok in H as (found & Hfound & [= <-]).
    split; [apply NoDup_uniq |]. intros f Hf. rewrite elem_of_uniq in Hf.
    apply allM_ok in Hfound.
    induction Hfound as [|e y kept' found' He _ IH]; [inversion Hf |].
    apply elem_of_cons in Hf as [<-|Hf]; [| auto].
    unfold lookup_font in He. destruct (get e "font") as [[]|]; try discriminate.
    simpl in He. injection He as He. eauto.
Qed.

Lemma attach_Some (deps l : list (option string)) :
  attach deps = Some l ↔ deps ≠ [] ∧ l = deps.
Proof.
  unfold attach. destruct deps; simpl; split; try done.
  - intros [? _]. done.
  - intros [= <-]. done.
  - intros [_ ->]. done.
Qed.

(** C3, at a template whose only text element names a font the index does
    not know: the lookup gives undefined, the Set keeps it, the array has
    length one, and the field is attached holding that undefined (null once
    serialised), through the search as through the template.json branch. *)
Theorem unknown_font_is_attached (md5_hex : string → string)
    (eval_script : string → script_outcome) :
  searchTemplateDependencyFont ∅ (template_with ["NoSuchFont"]) = Ok [None]
  ∧ attach [None] = Some [None]
  ∧ templateOf md5_hex (λ _, Some (template_with ["NoSuchFont"])) eval_script ∅
      ("foo", Dir [("template.json", File true "{}")])
    = Ok (Some {| t_type := "template"; t_id := Some "foo";
                  t_metadata := VObj [];
                  t_resource := {[ "template.json" := md5_hex "{}" ]};
                  t_size := 2;
                  t_dependentFonts := Some [None] |}).
Proof. repeat split; reflexivity. Qed.

(** ** Case-insensitive font lookup *)

Lemma lookup_index_names (font : string) (names : list string)
    (m : gmap string string) (k : string) :
  foldl (λ m n, <[n := font]> m) m names !! k
  = if decide (k ∈ names) then Some font else m !! k.
Proof.
  revert m. induction names as [|n names IH]; intros m.
  - destruct (decide (k ∈ [])) as [H|_]; [inversion H | done].
  - change (foldl (λ m n, <[n := font]> m) (<[n := font]> m) names !! k
            = if decide (k ∈ n :: names) then Some font else m !! k).
    rewrite IH. destruct (decide (k ∈ names)) as [Hin|Hout].
    + by rewrite decide_True by (by right).
    + destruct (decide (k = n)) as [->|Hne].
      * rewrite lookup_insert_eq. by rewrite decide_True by left.
      * rewrite lookup_insert_ne by done.
        rewrite decide_False; [done |]. rewrite not_elem_of_cons. done.
Qed.

Lemma search_one_reference (fontMap : gmap string string) (r : string) :
  searchTemplateDependencyFont fontMap (template_with [r])
  = if String.eqb r "" then Ok [] else Ok [fontMap !! toLowerCase r].
Proof.
  unfold searchTemplateDependencyFont, template_with. simpl.
  destruct (String.eqb_spec r "") as [->|Hne]; [reflexivity |].
  reflexivity.
Qed.

Section CaseInsensitive.
Variable md5_hex : string → string.
Variable fontkit_open : string → option Font.

(** C8: once a font has been indexed, two references that differ only in
    letter case resolve alike, element by element and for whole templates;
    and a reference that differs only in letter case from one of the
    font's names resolves to that font's file. *)
Theorem font_lookup_ignores_case
    (st st' : gmap string string * gmap string fontEntry)
    (font bytes : string) (f : Font) :
  fontkit_open bytes = Some f →
  indexFont md5_hex fontkit_open st (font, File true bytes) = Ok st' →
  (∀ r1 r2, same_ignoring_case r1 r2 →
     lookup_font st'.1 (text_element r1) = lookup_font st'.1 (text_element r2)
     ∧ searchTemplateDependencyFont st'.1 (template_with [r1])
       = searchTemplateDependencyFont st'.1 (template_with [r2]))
  ∧ (∀ n r,
       Some n ∈ [familyName f; fullName f; postscriptName f; subfamilyName f] →
       same_ignoring_case r n → r ≠ "" →
       lookup_font st'.1 (text_element r) = Ok (Some font)
       ∧ searchTemplateDependencyFont st'.1 (template_with [r])
         = Ok [Some font]).
Proof.
  intros Hopen Hidx. split.
  - intros r1 r2 Hr. apply toLowerCase_ignores_case in Hr as Hlow.
    split; [unfold lookup_font; simpl; by rewrite Hlow |].
    rewrite !search_one_reference, Hlow.
    assert (String.eqb r1 "" = String.eqb r2 "") as ->; [| done].
    destruct Hr; reflexivity.
  - intros n r Hn Hr Hne.
    assert (st'.1 !! toLowerCase r = Some font) as Hget.
    { destruct st as [fontNameMap resultFontObj]. unfold indexFont in Hidx.
      simpl in Hidx. apply bind_ok in Hidx as (info & Hinfo & Hst).
      injection Hst as <-. simpl.
      rewrite lookup_index_names. rewrite decide_True; [done |].
      rewrite (getFontInfo_open _ _ _ Hopen) in Hinfo.
      apply bind_ok in Hinfo as (names & Hnames & Hres).
      injection Hres as <-. apply elem_of_uniq. apply allM_ok in Hnames.
      rewrite (toLowerCase_ignores_case _ _ Hr).
      clear -Hnames Hn.
      induction Hnames as [|x y l l' Hx _ IH]; [inversion Hn |].
      apply elem_of_cons in Hn as [<-|Hn].
      - simpl in Hx. injection Hx as <-. left.
      - right. auto. }
    split; [unfold lookup_font; simpl; by rewrite Hget |].
    rewrite search_one_reference, Hget.
    destruct (String.eqb_spec r ""); done.
Qed.

End CaseInsensitive.

Lemma font_lookup_ignores_case_witness :
  ∃ st', indexFont (λ s, s) (λ _, Some arial) (∅, ∅)
           ("arial.ttf", File true "bytes") = Ok st'
    ∧ lookup_font st'.1 (text_element "Arial")
      = lookup_font st'.1 (text_element "arial")
    ∧ searchTemplateDependencyFont st'.1 (template_with ["ARIAL"])
      = Ok [Some "arial.ttf"].
Proof.
  eexists. split; [reflexivity |].
  pose proof (font_lookup_ignores_case (λ s, s) (λ _, Some arial) (∅, ∅)
                _ "arial.ttf" "bytes" arial eq_refl eq_refl) as [H1 H2].
  split.
  - apply H1. apply (sic_up "A" "a"); [exists 65; repeat split; lia |].
    repeat apply sic_same. apply sic_nil.
  - apply (H2 "Arial" "ARIAL").
    + left.
    + apply sic_same.
      apply sic_up; [exists 82; repeat split; lia |].
      apply sic_up; [exists 73; repeat split; lia |].
      apply sic_up; [exists 65; repeat split; lia |].
      apply sic_up; [exists 76; repeat split; lia |].
      apply sic_nil.
    + discriminate.
Defined.

(** ** Classification of a template directory *)

Section Classification.
Variable md5_hex : string → string.
Variable JSON_parse : string → option value.
Variable eval_script : string → script_outcome.

Abbreviation templateOf' := (templateOf md5_hex JSON_parse eval_script).
Abbreviation scriptTemplate' := (scriptTemplate md5_hex eval_script).
Abbreviation jsonTemplate' := (jsonTemplate md5_hex JSON_parse).
Abbreviation oldJsonTemplate' := (oldJsonTemplate md5_hex JSON_parse).

Lemma existsSync_true (files : list (string * node)) (name : string) :
  existsSync files name = true → ∃ nd, assoc name files = Some nd.
Proof. intros H. by apply existsSync_assoc in H as [nd ?]; exists nd. Qed.

Lemma existsSync_false (files : list (string * node)) (name : string) :
  existsSync files name = false → assoc name files = None.
Proof.
  intros H. destruct (assoc name files) as [nd|] eqn:E; [| done].
  assert (existsSync files name = true) by (apply existsSync_assoc; eauto).
  congruence.
Qed.

Lemma scriptTemplate_type (id : string) (files : list (string * node))
    (script : node) (t : template) :
  scriptTemplate' id files script = Ok (Some t) →
  t_type t = "script" ∧ t_id t = Some id ∧ t_dependentFonts t = None.
Proof.
  unfold scriptTemplate. intros H. apply bind_ok in H as (src & _ & H).
  destruct (eval_script src) as [|writes]; [discriminate |].
  destruct (negb _); [discriminate |].
  apply bind_ok in H as (h & _ & H). injection H as <-. done.
Qed.

Lemma jsonTemplate_type (fontMap : gmap string string) (id : string)
    (files : list (string * node)) (file : node) (t : template) :
  jsonTemplate' fontMap id files file = Ok (Some t) →
  t_type t = "template" ∧ t_id t = Some id
  ∧ ∃ template, require JSON_parse file = Ok template
      ∧ get template "metadata" = Ok (t_metadata t).
Proof.
  unfold jsonTemplate. intros H. apply bind_ok in H as (template & Hreq & H).
  apply bind_ok in H as (metadata & Hmeta & H).
  apply bind_ok in H as (h & _ & H). apply bind_ok in H as (deps & _ & H).
  injection H as <-. simpl. eauto.
Qed.

Lemma oldJsonTemplate_type (fontMap : gmap string string) (id : string)
    (files : list (string * node)) (file : node) (t : template) :
  oldJsonTemplate' fontMap id files file = Ok (Some t) →
  t_type t = "template" ∧ t_id t = Some id
  ∧ ∃ template alias inRandomList hidden,
      require JSON_parse file = Ok template
      ∧ get template "alias" = Ok alias
      ∧ get template "inRandomList" = Ok inRandomList
      ∧ get template "hidden" = Ok hidden
      ∧ t_metadata t = VObj [("apiVersion", VNum 0); ("alias", alias);
                             ("inRandomList", inRandomList); ("hidden", hidden)].
Proof.
  unfold oldJsonTemplate. intros H.
  apply bind_ok in H as (template & Hreq & H).
  apply bind_ok in H as (alias & Ha & H).
  apply bind_ok in H as (inRandomList & Hi & H).
  apply bind_ok in H as (hidden & Hh & H).
  apply bind_ok in H as (h & _ & H). apply bind_ok in H as (deps & _ & H).
  injection H as <-. simpl. split; [done |]. split; [done |].
  exists template, alias, inRandomList, hidden. done.
Qed.

End Classification.

(** ** Templates that are skipped *)

Section Skipping.
Variable md5_hex : string → string.
Variable fontkit_open : string → option Font.
Variable rootDir : string.
Variable JSON_parse : string → option value.
Variable eval_script : string → script_outcome.

Abbreviation templateOf' := (templateOf md5_hex JSON_parse eval_script).
Abbreviation build :=
  (buildTemplateIndex md5_hex fontkit_open rootDir JSON_parse eval_script).


Lemma templateOf_id (fontMap : gmap string string) (id : string) (nd : node)
    (t : template) :
  templateOf' fontMap (id, nd) = Ok (Some t) → t_id t = Some id.
Proof.
  unfold templateOf. destruct nd as [|files]; [discriminate |].
  destruct (assoc SCRIPT_NAME files) as [script|].
  { intros H. by apply scriptTemplate_type in H as (_ & ? & _). }
  destruct (assoc TEMPLATE_NAME files) as [file|].
  { intros H. by apply jsonTemplate_type in H as (_ & ? & _). }
  destruct (assoc OLD_TEMPLATE_NAME files) as [file|]; [| discriminate].
  intros H. by apply oldJsonTemplate_type in H as (_ & ? & _).
Qed.

Lemma file_template_keys (ts : list template) (m : gmap string template)
    (k : string) :
  is_Some (foldl file_template m ts !! k) →
  is_Some (m !! k) ∨ ∃ t, t ∈ ts ∧ default "undefined" (t_id t) = k.
Proof.
  revert m. induction ts as [|t ts IH]; intros m; simpl; [auto |].
  intros H. apply IH in H as [H|(t' & Hin & Hk)].
  - unfold file_template, obj_set in H. case_decide; [auto |].
    apply lookup_insert_is_Some in H as [H|[_ H]]; [| auto].
    right. exists t. split; [left | done].
  - right. exists t'. split; [by right | done].
Qed.

Lemma allM_origin {A B} (f : A → res (option B)) (l : list A)
    (ys : list (option B)) (y : B) :
  allM f l = Ok ys → y ∈ omap (λ t, t) ys → ∃ x, x ∈ l ∧ f x = Ok (Some y).
Proof.
  intros H Hy. apply allM_ok in H.
  apply list_elem_of_omap in Hy as (o & Ho & ->).
  induction H as [|x o' l ys Hx _ IH]; [inversion Ho |].
  apply elem_of_cons in Ho as [<-|Ho].
  - exists x. split; [left | done].
  - destruct (IH Ho) as (x' & ? & ?). exists x'. split; [by right | done].
Qed.

(** What a successful build returns: one document, whose templates are
    filed under names of the templates directory. *)
Lemma build_manifest (config : Config) (w : world)
    (docs : gmap string document) :
  build config w = Ok docs →
  ∃ ids templates fonts,
    templatesDir w = Some ids
    ∧ docs = {[ path_join (path_join rootDir (basePath config))
                          "petpet-index.json" :=
                  PetpetIndexJson (path config) templates
                                  (fontsPath config) fonts ]}
    ∧ ∀ k, is_Some (templates !! k) → k ∈ ids.*1.
Proof.
  unfold buildTemplateIndex. intros H.
  apply bind_ok in H as (fontFiles & _ & H).
  apply bind_ok in H as (st & _ & H).
  apply bind_ok in H as (ids & Hids & H).
  apply bind_ok in H as (tl & Htl & H). injection H as <-.
  destruct (templatesDir w) as [ids'|]; [| discriminate].
  injection Hids as ->. exists ids. do 2 eexists.
  split; [done |]. split; [done |].
  intros k Hk. apply file_template_keys in Hk as [Hk|(t & Hin & Hk)].
  { rewrite lookup_empty in Hk. by destruct Hk. }
  destruct (allM_origin _ _ _ _ Htl Hin) as ([id nd] & Hentry & Ht).
  apply templateOf_id in Ht. rewrite Ht in Hk. simpl in Hk. subst k.
  apply list_elem_of_fmap. by exists (id, nd).
Qed.




End Skipping.

(** ** The directory hasher *)

Section Hasher.
Variable md5_hex : string → string.

Abbreviation filesMd5' := (filesMd5 md5_hex).
Abbreviation hash_entry' := (hash_entry md5_hex).

Lemma filesMd5_unfold (files : list (string * node)) :
  filesMd5' files = forEachM hash_entry' files (Hashes ∅ 0).
Proof.
  unfold filesMd5. cbn [filesMd5_at]. generalize (Hashes ∅ 0).
  induction files as [|[file sub] files IH]; intros result; [done |].
  cbn [forEachM]. destruct sub as [readable content|sub]; cbn [hash_entry].
  - destruct (md5 md5_hex _); cbn [mbind res_bind]; [apply IH | done].
  - unfold filesMd5. destruct (filesMd5_at md5_hex (Dir sub));
      cbn [mbind res_bind]; [apply IH | done].
Qed.

(** A file that cannot be read makes the whole directory hash fail,
    wherever it sits in the listing. *)
Lemma filesMd5_unreadable (files : list (string * node)) (name content : string) :
  (name, File false content) ∈ files → is_ok (filesMd5' files) = false.
Proof.
  rewrite filesMd5_unfold. generalize (Hashes ∅ 0).
  induction files as [|entry files IH]; intros result Hin; [inversion Hin |].
  cbn [forEachM]. apply elem_of_cons in Hin as [<-|Hin]; [done |].
  destruct (hash_entry' result entry); simpl; auto.
Qed.

End Hasher.

(** ** Failure of the build *)

Lemma is_ok_false {A} (r : res A) : is_ok r = false ↔ ∃ e, r = Throw e.
Proof.
  destruct r as [a|e]; simpl; split; try done.
  - intros [e [=]].
  - eauto.
Qed.

Lemma allM_fails {A B} (f : A → res B) (l : list A) (x : A) :
  x ∈ l → is_ok (f x) = false → is_ok (allM f l) = false.
Proof.
  intros Hin Hx. induction l as [|y l IH]; [inversion Hin |].
  simpl. apply elem_of_cons in Hin as [<-|Hin].
  - by destruct (f x).
  - destruct (f y); [| done]. simpl.
    specialize (IH Hin). by destruct (allM f l).
Qed.

Section Failure.
Variable md5_hex : string → string.
Variable fontkit_open : string → option Font.
Variable rootDir : string.
Variable JSON_parse : string → option value.
Variable eval_script : string → script_outcome.
Variable write_error : string → option error.

Abbreviation templateOf' := (templateOf md5_hex JSON_parse eval_script).
Abbreviation build :=
  (buildTemplateIndex md5_hex fontkit_open rootDir JSON_parse eval_script).
Abbreviation buildOld := (buildOldTemplateIndex rootDir JSON_parse).
Abbreviation main' :=
  (main md5_hex fontkit_open rootDir JSON_parse eval_script write_error).
Abbreviation fails := (template_fails JSON_parse eval_script).

Lemma template_fails_throws (fontMap : gmap string string)
    (entry : string * node) :
  fails entry → is_ok (templateOf' fontMap entry) = false.
Proof.
  destruct 1 as [id files src Hs He|id files text Hs Ht Hp
                |id files text Hs Ht Ho Hp|id files c Hs
                |id files c Hs Ht|id files c Hs Ht Ho
                |id files src writes name c Hs He Hm Hin
                |id files text props name c Hs Ht Hp Hin];
    unfold templateOf; rewrite Hs.
  - unfold scriptTemplate. simpl. by rewrite He.
  - rewrite Ht. unfold jsonTemplate, require, parse. simpl. by rewrite Hp.
  - rewrite Ht, Ho. unfold oldJsonTemplate, require, parse. simpl.
    by rewrite Hp.
  - done.
  - by rewrite Ht.
  - by rewrite Ht, Ho.
  - unfold scriptTemplate. simpl. rewrite He, Hm. simpl.
    pose proof (filesMd5_unreadable md5_hex files name c Hin) as Hf.
    by destruct (filesMd5 md5_hex files).
  - rewrite Ht. unfold jsonTemplate, require, parse. simpl. rewrite Hp. simpl.
    pose proof (filesMd5_unreadable md5_hex files name c Hin) as Hf.
    by destruct (filesMd5 md5_hex files).
Qed.

Lemma build_fails (config : Config) (w : world)
    (ids : list (string * node)) (entry : string * node) :
  templatesDir w = Some ids → entry ∈ ids →
  (∀ fontMap, is_ok (templateOf' fontMap entry) = false) →
  is_ok (build config w) = false.
Proof.
  intros Hdir Hin Hfail. unfold buildTemplateIndex.
  destruct (readdir (fontsDir w)); [| done]. simpl.
  destruct (forEachM _ _ _) as [st|]; [| done]. simpl.
  rewrite Hdir. simpl.
  pose proof (allM_fails (templateOf' st.1) ids entry Hin (Hfail _)) as Hall.
  by destruct (allM _ ids).
Qed.

Lemma main_throws (config : Config) (w : world) (disk : gmap string document)
    (e : error) :
  build config w = Throw e →
  ∃ e', main' config w disk = (Throw e', disk)
    ∧ (is_ok (buildOld config w) = true → e' = e).
Proof.
  intros Hb. unfold main. destruct (buildOldTemplateIndex _ _ _ _) as [old|e'].
  - simpl. rewrite Hb. simpl. eauto.
  - simpl. exists e'. split; [done | discriminate].
Qed.

(** C7: when the template builder fails, the run ends with an error, the
    builder's own whenever the legacy builder before it went through, and
    the disk is as it was: nothing is written.  Any of the listed failures
    of a template is enough for that. *)
Theorem failed_build_writes_nothing (config : Config) (w : world)
    (disk : gmap string document) :
  (∀ e, build config w = Throw e →
     ∃ e', main' config w disk = (Throw e', disk)
       ∧ (is_ok (buildOld config w) = true → e' = e))
  ∧ (∀ ids entry,
       templatesDir w = Some ids → entry ∈ ids → fails entry →
       ∃ e, main' config w disk = (Throw e, disk)).
Proof.
  split; [intros e; apply main_throws |].
  intros ids entry Hdir Hin Hfail.
  assert (is_ok (build config w) = false) as Hb.
  { eapply build_fails; [done | done |].
    intros fontMap. by apply template_fails_throws. }
  apply is_ok_false in Hb as [e Hb].
  destruct (main_throws config w disk e Hb) as (e' & Hmain & _). eauto.
Qed.

(** Conversely, a run that writes anything has had both builders succeed,
    and then writes the results in the order of their keys. *)
Lemma main_writes_all (config : Config) (w : world)
    (disk : gmap string document) (old new : gmap string document) :
  buildOld config w = Ok old → build config w = Ok new →
  main' config w disk
  = writeAll write_error
      (uniq (oldKeys rootDir config ++ newKeys rootDir config)%list)
      (new ∪ old) disk.
Proof. intros Ho Hn. unfold main. by rewrite Ho, Hn. Qed.

End Failure.

(** ** Sample runs *)



(** C6, at a script that never calls register but assigns the variable
    [metadata] of the callback that evaluates it: the only write to the
    variable is the script's own, none comes from the hook, and yet the
    build returns a manifest with an entry of type script under the name
    of the directory, holding the assigned value as its metadata. *)
Theorem unregistered_script_is_indexed :
  sample_eval "metadata = {name: 'sneaky'}"
  = ScriptReturns [Assigned (VObj [("name", VStr "sneaky")])]
  ∧ ∃ docs templates entry,
      sample_build sneaky_world = Ok docs
      ∧ docs !! "/repo/data/petpet-index.json"
        = Some (PetpetIndexJson "templates" templates "fonts" ∅)
      ∧ templates !! "sneaky" = Some entry
      ∧ t_type entry = "script"
      ∧ t_metadata entry = VObj [("name", VStr "sneaky")].
Proof.
  split; [reflexivity |]. do 3 eexists.
  split; [reflexivity |]. split; [reflexivity |]. split; [reflexivity |].
  split; reflexivity.
Qed.

(** C10, at a script whose registered callback returns 0 and which
    afterwards assigns [metadata] itself: the value the hook stored is
    falsy, and yet the build returns a manifest with an entry of type
    script under the name of the directory, holding the assigned value as
    its metadata. *)
Theorem falsy_callback_is_indexed :
  sample_eval "register(() => 0); metadata = {name: 'late'}"
  = ScriptReturns [Registered (VNum 0); Assigned (VObj [("name", VStr "late")])]
  ∧ truthy (VNum 0) = false
  ∧ ∃ docs templates entry,
      sample_build late_world = Ok docs
      ∧ docs !! "/repo/data/petpet-index.json"
        = Some (PetpetIndexJson "templates" templates "fonts" ∅)
      ∧ templates !! "late" = Some entry
      ∧ t_type entry = "script"
      ∧ t_metadata entry = VObj [("name", VStr "late")].
Proof.
  split; [reflexivity |]. split; [reflexivity |]. do 3 eexists.
  split; [reflexivity |]. split; [reflexivity |]. split; [reflexivity |].
  split; reflexivity.
Qed.

Lemma failed_build_writes_nothing_witness :
  ∃ e, sample_main broken_world ∅ = (Throw e, ∅).
Proof.
  apply (proj2 (failed_build_writes_nothing (λ s, s) (λ _, None) "/repo"
                  sample_parse sample_eval (λ _, None) sample_config
                  broken_world ∅)
           _ ("broken", Dir [("template.json", File true "{oops")]) eq_refl).
  - right. left.
  - by apply malformed_template with (text := "{oops").
Defined.

(** ** The directory hasher against an independent walk *)

(** C1, at a directory that holds a file named __proto__: the walk finds
    two regular files, the hasher counts the bytes of both, but its map has
    an entry for one of them only, because the assignment under the key
    __proto__ creates no property; the same happens one level down. *)
Theorem filesMd5_drops_proto_file (md5_hex : string → string) :
  let files := [("a.png", File true "png"); ("__proto__", File true "x")] in
  walk files = [("a.png", "png"); ("__proto__", "x")]
  ∧ filesMd5 md5_hex files
    = Ok {| resource := {[ "a.png" := md5_hex "png" ]}; hsize := 4 |}
  ∧ filesMd5 md5_hex [("sub", Dir files)]
    = Ok {| resource := {[ "sub/a.png" := md5_hex "png" ]}; hsize := 4 |}.
Proof. repeat split; reflexivity. Qed.

(** ** The legacy index *)

(** C9, at a template directory named __proto__: the directory is listed
    in dataList, but the three maps of index.map.json stay empty, because
    the assignments under the key __proto__ create no property. *)
Theorem legacy_index_drops_proto_directory :
  buildOldTemplateIndex "/repo" sample_parse sample_config
    (legacy_world "__proto__" "legacy")
  = Ok (<["/repo/data/index.map.json" := IndexMapJson ∅ ∅ ∅]>
        (<["/repo/data/index.json" :=
             IndexJson 3 "templates" ["__proto__"] []]> ∅)).
Proof. reflexivity. Qed.

Section Legacy.
Variable rootDir : string.
Variable JSON_parse : string → option value.

(** Under any other name the scenario comes out as described: the name is
    in dataList, and index.map.json has length 2, alias ["f"] and type
    "Fun" for it. *)
Lemma legacy_index_scenario (config : Config) (name text : string)
    (fonts : list (string * node)) :
  name ≠ "__proto__" →
  JSON_parse text
  = Some (VObj [("alias", VArr [VStr "f"]); ("type", VStr "Fun")]) →
  ∃ lengthMap aliasMap typeMap,
    buildOldTemplateIndex rootDir JSON_parse config
      {| templatesDir := Some [(name, Dir (legacy_files text))];
         fontsDir := Some fonts |}
    = Ok (<[path_join (path_join rootDir (basePath config)) "index.map.json" :=
              IndexMapJson lengthMap aliasMap typeMap]>
          (<[path_join (path_join rootDir (basePath config)) "index.json" :=
               IndexJson (oldTargetVersion config) (path config) [name]
                         (List.filter match_font (fonts.*1))]> ∅))
    ∧ lengthMap !! name = Some 2
    ∧ aliasMap !! name = Some (VArr [VStr "f"])
    ∧ typeMap !! name = Some (VStr "Fun").
Proof.
  intros Hname Hparse. unfold buildOldTemplateIndex, legacy_files. simpl.
  unfold parse. rewrite Hparse. simpl. unfold obj_set.
  rewrite !decide_False by done.
  do 3 eexists. split; [reflexivity |].
  by rewrite !lookup_insert_eq.
Qed.

End Legacy.

(** ** The directory hasher on ordinary trees *)

Lemma first_segment_name (name : string) :
  has_slash name = false → first_segment name = name.
Proof.
  induction name as [|c name IH]; simpl; [done |].
  destruct (Ascii.eqb c "/"); simpl; [done |]. intros H. by rewrite IH.
Qed.

Lemma first_segment_join (name rest : string) :
  has_slash name = false → first_segment (name ++ String "/" rest) = name.
Proof.
  induction name as [|c name IH]; simpl in *; [done |].
  destruct (Ascii.eqb c "/"); simpl; [done |]. intros H. by rewrite IH.
Qed.

Lemma has_slash_join (name rest : string) :
  has_slash (name ++ String "/" rest) = true.
Proof.
  induction name as [|c name IH]; simpl in *; [done |].
  rewrite IH. apply orb_true_r.
Qed.

Lemma join_not_proto (name rest : string) : name ++ "/" ++ rest ≠ "__proto__".
Proof.
  intros H. pose proof (has_slash_join name rest) as Hs.
  change (name ++ String "/" rest) with (name ++ "/" ++ rest) in Hs.
  rewrite H in Hs. discriminate.
Qed.

#[local] Instance join_inj (name : string) : Inj (=) (=) (λ p, name ++ "/" ++ p).
Proof.
  intros p q H. induction name as [|c name IH]; simpl in *.
  - congruence.
  - injection H as H. auto.
Qed.

Lemma walk_file (name content : string) (readable : bool)
    (files : list (string * node)) :
  walk ((name, File readable content) :: files)
  = (name, content) :: walk files.
Proof. reflexivity. Qed.

Lemma walk_dir (name : string) (sub files : list (string * node)) :
  walk ((name, Dir sub) :: files)
  = ((under name <$> walk sub) ++ walk files)%list.
Proof. reflexivity. Qed.

Lemma under_keys (name : string) (found : list (string * string)) :
  (under name <$> found).*1 = (λ p, name ++ "/" ++ p) <$> found.*1.
Proof.
  induction found as [|[p c] found IH]; [done |]. by rewrite !fmap_cons, IH.
Qed.

Lemma walk_first_segment (files : list (string * node)) (p : string) :
  ordinary files → p ∈ (walk files).*1 → first_segment p ∈ files.*1.
Proof.
  induction 1 as [|name content files Hs _ _ _ IH
                 |name sub files Hs _ _ _ _ IH]; intros Hp.
  - inversion Hp.
  - rewrite walk_file in Hp. simpl in Hp. simpl.
    apply elem_of_cons in Hp as [->|Hp].
    + rewrite first_segment_name by done. left.
    + right. auto.
  - rewrite walk_dir, fmap_app in Hp. simpl.
    apply elem_of_app in Hp as [Hp|Hp]; [| right; auto].
    apply list_elem_of_fmap in Hp as ([q c] & -> & Hq).
    apply list_elem_of_fmap in Hq as ([q' c'] & [= -> ->] & _). simpl.
    rewrite first_segment_join by done. left.
Qed.

Lemma walk_NoDup (files : list (string * node)) :
  ordinary files → NoDup (walk files).*1.
Proof.
  induction 1 as [|name content files Hs _ Hfresh Hfiles IH
                 |name sub files Hs Hfresh Hsub IHsub Hfiles IH].
  - constructor.
  - rewrite walk_file. simpl. constructor; [| done].
    intros Hin. apply walk_first_segment in Hin; [| done].
    by rewrite first_segment_name in Hin.
  - rewrite walk_dir, fmap_app. apply NoDup_app. split; [| split; [| done]].
    + rewrite under_keys. by apply NoDup_fmap_2; [apply _ |].
    + intros p Hp Hin. apply walk_first_segment in Hin; [| done].
      apply list_elem_of_fmap in Hp as ([q c] & -> & Hq).
      apply list_elem_of_fmap in Hq as ([q' c'] & [= -> ->] & _).
      simpl in Hin. by rewrite first_segment_join in Hin.
Qed.

Section OrdinaryTrees.
Variable md5_hex : string → string.

Abbreviation digest' := (digest md5_hex).
Abbreviation expected' := (expected md5_hex).

Lemma digest_keys (found : list (string * string)) :
  (digest' <$> found).*1 = found.*1.
Proof.
  induction found as [|[p c] found IH]; [done |]. by rewrite !fmap_cons, IH.
Qed.

Lemma digest_under (name : string) (found : list (string * string)) :
  digest' <$> (under name <$> found)
  = prod_map (λ p, name ++ "/" ++ p) id <$> (digest' <$> found).
Proof.
  induction found as [|[p c] found IH]; [done |]. by rewrite !fmap_cons, IH.
Qed.

Lemma rekey_list (file : string) (l : list (string * string))
    (into : gmap string string) :
  foldr (λ '(name, hash) acc, obj_set (file ++ "/" ++ name) hash acc) into l
  = list_to_map (prod_map (λ p, file ++ "/" ++ p) id <$> l) ∪ into.
Proof.
  induction l as [|[name hash] l IH].
  - simpl. by rewrite (left_id ∅ (∪)).
  - rewrite fmap_cons. cbn [foldr list_to_map prod_map fst snd id].
    rewrite IH. unfold obj_set.
    rewrite decide_False by apply join_not_proto.
    by rewrite insert_union_l.
Qed.

Lemma rekey_expected (file : string) (l : list (string * string))
    (into : gmap string string) :
  NoDup l.*1 →
  rekey file (list_to_map l) into
  = list_to_map (prod_map (λ p, file ++ "/" ++ p) id <$> l) ∪ into.
Proof.
  intros Hl. unfold rekey. rewrite rekey_list. f_equal.
  apply list_to_map_proper.
  - rewrite <- list_fmap_compose.
    rewrite (list_fmap_ext _ ((λ p, file ++ "/" ++ p) ∘ fst) (map_to_list _))
      by (by intros ? []).
    rewrite list_fmap_compose. apply NoDup_fmap_2; [apply _ |].
    apply NoDup_fst_map_to_list.
  - apply fmap_Permutation. by apply map_to_list_to_map.
Qed.

Lemma expected_disjoint (l1 l2 : list (string * string)) :
  (∀ p, p ∈ l1.*1 → p ∉ l2.*1) →
  (list_to_map l1 : gmap string string) ##ₘ list_to_map l2.
Proof.
  intros H. apply map_disjoint_alt. intros p.
  destruct (decide (p ∈ l1.*1)) as [Hin|Hout].
  - right. apply not_elem_of_list_to_map_1. auto.
  - left. by apply not_elem_of_list_to_map_1.
Qed.

Lemma total_size_app (l1 l2 : list (string * string)) :
  total_size (l1 ++ l2)%list = (total_size l1 + total_size l2)%N.
Proof.
  induction l1 as [|f l1 IH]; simpl; [done |].
  unfold total_size in *. simpl. rewrite IH. lia.
Qed.

Lemma total_size_under (name : string) (l : list (string * string)) :
  total_size (under name <$> l) = total_size l.
Proof.
  induction l as [|f l IH]; [done |].
  rewrite fmap_cons. unfold total_size in *. simpl. by rewrite IH.
Qed.

Lemma forEach_ordinary (files : list (string * node)) :
  ordinary files →
  ∀ result, ∃ h,
    forEachM (hash_entry md5_hex) files result = Ok h
    ∧ resource h = expected' files ∪ resource result
    ∧ hsize h = (hsize result + total_size (walk files))%N.
Proof.
  induction 1 as [|name content files Hs Hproto Hfresh Hfiles IH
                 |name sub files Hs Hfresh Hsub IHsub Hfiles IH];
    intros result.
  - exists result. split; [done |]. unfold expected. simpl.
    rewrite (left_id ∅ (∪)). split; [done | lia].
  - cbn [forEachM hash_entry md5 mbind res_bind].
    destruct (IH (Hashes (obj_set name (md5_hex content) (resource result))
                         (hsize result + stat_size content)))
      as (h & Hh & Hres & Hsize).
    exists h. split; [done |]. cbn [resource hsize] in Hres, Hsize.
    split.
    + rewrite Hres. unfold obj_set. rewrite decide_False by done.
      unfold expected. rewrite walk_file, fmap_cons. cbn [list_to_map].
      change (digest' (name, content)).1 with name.
      change (digest' (name, content)).2 with (md5_hex content).
      rewrite <- insert_union_r; [by rewrite insert_union_l |].
      apply not_elem_of_list_to_map_1. rewrite digest_keys.
      intros Hin. apply walk_first_segment in Hin; [| done].
      by rewrite first_segment_name in Hin.
    + rewrite Hsize, walk_file. unfold total_size. simpl. lia.
  - cbn [forEachM hash_entry]. rewrite filesMd5_unfold.
    destruct (IHsub (Hashes ∅ 0)) as (child & Hchild & Hcres & Hcsize).
    rewrite Hchild. cbn [mbind res_bind].
    cbn [resource hsize] in Hcres, Hcsize.
    rewrite (right_id ∅ (∪)) in Hcres.
    destruct (IH (Hashes (rekey name (resource child) (resource result))
                         (hsize result + hsize child)))
      as (h & Hh & Hres & Hsize).
    exists h. split; [done |]. cbn [resource hsize] in Hres, Hsize.
    split.
    + rewrite Hres, Hcres. unfold expected at 2.
      rewrite rekey_expected
        by (rewrite digest_keys; by apply walk_NoDup).
      unfold expected. rewrite walk_dir, fmap_app, list_to_map_app.
      rewrite digest_under.
      rewrite (assoc_L (∪)). f_equal. apply map_union_comm.
      apply expected_disjoint. intros p Hp Hin.
      rewrite <- digest_under, digest_keys in Hin. rewrite digest_keys in Hp.
      apply walk_first_segment in Hp; [| done].
      apply list_elem_of_fmap in Hin as ([q c] & -> & Hq).
      apply list_elem_of_fmap in Hq as ([q' c'] & [= -> ->] & _).
      simpl in Hp. by rewrite first_segment_join in Hp.
    + rewrite Hsize, Hcsize, walk_dir, total_size_app, total_size_under. lia.
Qed.

(** On an ordinary tree the hasher returns, and what it returns is what
    the walk finds: the map has exactly one entry per regular file, under
    the file's relative path, holding the digest of its bytes; no two
    files share a path; the size is the sum of the file sizes. *)
Theorem filesMd5_ordinary (files : list (string * node)) :
  ordinary files →
  ∃ h, filesMd5 md5_hex files = Ok h
    ∧ (∀ p d, resource h !! p = Some d
              ↔ ∃ content, (p, content) ∈ walk files ∧ d = md5_hex content)
    ∧ NoDup (walk files).*1
    ∧ size (resource h) = length (walk files)
    ∧ hsize h = total_size (walk files).
Proof.
  intros Hord. rewrite filesMd5_unfold.
  destruct (forEach_ordinary files Hord (Hashes ∅ 0)) as (h & Hh & Hres & Hsize).
  cbn [resource hsize] in Hres, Hsize. rewrite (right_id ∅ (∪)) in Hres.
  pose proof (walk_NoDup files Hord) as Hnd.
  exists h. split; [done |]. split; [| split; [done | split]].
  - intros p d. rewrite Hres. unfold expected.
    rewrite <- elem_of_list_to_map by (by rewrite digest_keys).
    rewrite list_elem_of_fmap. split.
    + intros ([q c] & [= -> ->] & Hin). eauto.
    + intros (c & Hin & ->). by exists (p, c).
  - rewrite Hres. unfold expected.
    rewrite map_size_list_to_map by (by rewrite digest_keys).
    by rewrite length_fmap.
  - rewrite Hsize. lia.
Qed.

End OrdinaryTrees.

(** ** Further properties of the builders *)

(** The font filter selects exactly the names in which some character other
    than a line terminator is followed by a full stop and one of the four
    extensions. *)
Theorem font_filter_characterised (s : string) :
  match_font s = true ↔ font_pattern s.
Proof. apply match_font_spec. Qed.

(** Whenever a dependency search returns, for either template format, its
    result holds no value twice and every file name in it is a value of the
    font-name index. *)
Theorem dependent_fonts_sound (fontMap : gmap string string) (template : value)
    (deps : list (option string)) :
  searchTemplateDependencyFont fontMap template = Ok deps
  ∨ searchOldTemplateDependencyFont fontMap template = Ok deps →
  NoDup deps ∧ ∀ f, Some f ∈ deps → ∃ k, fontMap !! k = Some f.
Proof.
  unfold searchTemplateDependencyFont, searchOldTemplateDependencyFont.
  intros [H|H]; apply bind_ok in H as (arr & _ & H); by apply search_ok in H.
Qed.

Lemma dependent_fonts_sound_witness :
  NoDup [Some "arial.ttf"; None]
  ∧ ∀ f, Some f ∈ [Some "arial.ttf"; None] →
         ∃ k, ({[ "arial" := "arial.ttf" ]} : gmap string string) !! k = Some f.
Proof.
  apply (dependent_fonts_sound {[ "arial" := "arial.ttf" ]}
           (template_with ["Arial"; "ARIAL"; "Courier"])).
  left. reflexivity.
Defined.

(** The directory hash fails as a whole as soon as one file of the listing
    cannot be read. *)
Theorem filesMd5_fails_fast (md5_hex : string → string)
    (files : list (string * node)) (name content : string) :
  (name, File false content) ∈ files → ∃ e, filesMd5 md5_hex files = Throw e.
Proof. intros Hin. apply is_ok_false. by eapply filesMd5_unreadable. Qed.

Lemma filesMd5_fails_fast_witness :
  ∃ e, filesMd5 (λ s, s)
         [("a.png", File true "png"); ("b.png", File false "locked")]
       = Throw e.
Proof.
  apply (filesMd5_fails_fast (λ s, s) _ "b.png" "locked").
  right. left.
Defined.

Lemma filesMd5_ordinary_witness :
  ∃ h, filesMd5 (λ s, s)
         [("a.png", File true "png");
          ("frames", Dir [("1.png", File true "one"); ("2.png", File true "two")])]
       = Ok h
    ∧ size (resource h) = 3
    ∧ hsize h = 9%N.
Proof.
  destruct (filesMd5_ordinary (λ s, s)
              [("a.png", File true "png");
               ("frames", Dir [("1.png", File true "one");
                               ("2.png", File true "two")])])
    as (h & Hh & _ & _ & Hsize & Htotal).
  { apply ordinary_file; [reflexivity | discriminate | |].
    { apply (bool_decide_unpack _). vm_compute. exact I. }
    apply ordinary_dir; [reflexivity | apply not_elem_of_nil | | constructor].
    apply ordinary_file; [reflexivity | discriminate | |].
    { apply (bool_decide_unpack _). vm_compute. exact I. }
    apply ordinary_file;
      [reflexivity | discriminate | apply not_elem_of_nil | constructor]. }
  exists h. split; [exact Hh |]. split; [exact Hsize | exact Htotal].
Defined.

Lemma legacy_index_scenario_witness :
  ∃ lengthMap aliasMap typeMap,
    buildOldTemplateIndex "/repo" sample_parse sample_config
      (legacy_world "foo" "legacy")
    = Ok (<["/repo/data/index.map.json" :=
              IndexMapJson lengthMap aliasMap typeMap]>
          (<["/repo/data/index.json" := IndexJson 3 "templates" ["foo"] []]> ∅))
    ∧ lengthMap !! "foo" = Some 2
    ∧ aliasMap !! "foo" = Some (VArr [VStr "f"])
    ∧ typeMap !! "foo" = Some (VStr "Fun").
Proof.
  exact (legacy_index_scenario "/repo" sample_parse sample_config "foo" "legacy"
           [] ltac:(discriminate) eq_refl).
Defined.

(** ** The directory hasher on every tree *)

(** Induction over listings, with a hypothesis for the listing of every
    subdirectory. *)
Lemma listing_ind (P : list (string * node) → Prop) :
  P [] →
  (∀ name readable content files,
     P files → P ((name, File readable content) :: files)) →
  (∀ name sub files, P sub → P files → P ((name, Dir sub) :: files)) →
  ∀ files, P files.
Proof.
  intros Hnil Hfile Hdir.
  assert (∀ nd, match nd with File _ _ => True | Dir files => P files end) as H.
  { fix IH 1. intros [readable content|files]; [exact I |].
    revert files. fix IHfiles 1. intros [|[name nd] files]; [exact Hnil |].
    pose proof (IH nd) as Hnd. pose proof (IHfiles files) as Hfiles.
    destruct nd as [readable content|sub]; [by apply Hfile | by apply Hdir]. }
  intros files. apply (H (Dir files)).
Qed.

Lemma rekey_lookup (file : string) (child into : gmap string string)
    (p d : string) :
  rekey file child into !! p = Some d →
  into !! p = Some d ∨ ∃ q, p = file ++ "/" ++ q ∧ child !! q = Some d.
Proof.
  unfold rekey. rewrite rekey_list. intros H.
  apply lookup_union_Some_raw in H as [H|[_ H]]; [| by left].
  right. apply elem_of_list_to_map_2 in H.
  apply list_elem_of_fmap in H as ([q d'] & [= -> ->] & Hq).
  exists q. split; [done |]. by apply elem_of_map_to_list.
Qed.

Section EveryTree.
Variable md5_hex : string → string.

Lemma forEach_sound (files : list (string * node)) :
  ∀ result h,
    forEachM (hash_entry md5_hex) files result = Ok h →
    (∀ p d, resource h !! p = Some d →
            resource result !! p = Some d
            ∨ ∃ content, (p, content) ∈ walk files ∧ d = md5_hex content)
    ∧ hsize h = (hsize result + total_size (walk files))%N.
Proof.
  induction files as [|name readable content files IH
                     |name sub files IHsub IH] using listing_ind;
    intros result h Hh.
  - injection Hh as <-. split; [auto |]. unfold total_size. simpl. lia.
  - cbn [forEachM hash_entry] in Hh. apply bind_ok in Hh as (r' & Hr' & Hh).
    destruct readable; [| discriminate]. injection Hr' as <-.
    apply IH in Hh as [Hres Hsize]. cbn [resource hsize] in Hres, Hsize.
    rewrite walk_file. split.
    + intros p d Hp. apply Hres in Hp as [Hp|(c & Hin & ->)].
      * unfold obj_set in Hp. case_decide; [by left |].
        apply lookup_insert_Some in Hp as [[<- <-]|[_ Hp]]; [| by left].
        right. exists content. split; [left | done].
      * right. exists c. split; [by right | done].
    + rewrite Hsize. unfold total_size. simpl. lia.
  - cbn [forEachM hash_entry] in Hh. apply bind_ok in Hh as (r' & Hr' & Hh).
    apply bind_ok in Hr' as (child & Hchild & Hr'). injection Hr' as <-.
    rewrite filesMd5_unfold in Hchild.
    apply IHsub in Hchild as [Hcres Hcsize].
    apply IH in Hh as [Hres Hsize]. cbn [resource hsize] in *.
    rewrite walk_dir. split.
    + intros p d Hp. apply Hres in Hp as [Hp|(c & Hin & ->)].
      * apply rekey_lookup in Hp as [Hp|(q & -> & Hq)]; [by left |].
        apply Hcres in Hq as [Hq|(c & Hin & ->)].
        { by rewrite lookup_empty in Hq. }
        right. exists c. split; [| done]. apply elem_of_app. left.
        apply list_elem_of_fmap. by exists (q, c).
      * right. exists c. split; [| done]. apply elem_of_app. by right.
    + rewrite Hsize, Hcsize, total_size_app, total_size_under. lia.
Qed.

(** Whatever the tree, when the hasher returns, every entry of its map is
    the digest of a regular file the walk finds under that very path, and
    the size is the sum of the sizes of all the files the walk finds. *)
Theorem filesMd5_sound (files : list (string * node)) (h : hashes) :
  filesMd5 md5_hex files = Ok h →
  (∀ p d, resource h !! p = Some d →
          ∃ content, (p, content) ∈ walk files ∧ d = md5_hex content)
  ∧ hsize h = total_size (walk files).
Proof.
  rewrite filesMd5_unfold. intros Hh.
  apply forEach_sound in Hh as [Hres Hsize]. cbn [resource hsize] in *.
  split; [| rewrite Hsize; lia].
  intros p d Hp. apply Hres in Hp as [Hp|Hp]; [| done].
  by rewrite lookup_empty in Hp.
Qed.

End EveryTree.

Lemma filesMd5_sound_witness :
  let files := [("__proto__", File true "x"); ("a", Dir [("b", File true "yz")])] in
  ∃ h, filesMd5 (λ s, s) files = Ok h
    ∧ (∀ p d, resource h !! p = Some d →
              ∃ content, (p, content) ∈ walk files ∧ d = content)
    ∧ hsize h = 3%N.
Proof.
  eexists. split; [reflexivity |].
  apply (filesMd5_sound (λ s, s)
           [("__proto__", File true "x"); ("a", Dir [("b", File true "yz")])]).
  reflexivity.
Defined.

(** ** The order of a listing *)

Lemma walk_cons (entry : string * node) (files : list (string * node)) :
  walk (entry :: files) = (walk [entry] ++ walk files)%list.
Proof.
  destruct entry as [name [readable content|sub]].
  - reflexivity.
  - rewrite !walk_dir. by rewrite <- (assoc_L app).
Qed.

Lemma walk_Permutation (files files' : list (string * node)) :
  files ≡ₚ files' → walk files ≡ₚ walk files'.
Proof.
  induction 1 as [|x l l' _ IH|x y l|l1 l2 l3 _ IH1 _ IH2].
  - done.
  - rewrite (walk_cons x l), (walk_cons x l'). by rewrite IH.
  - rewrite (walk_cons y), (walk_cons x), (walk_cons x (y :: l)), (walk_cons y l).
    rewrite !(assoc_L app). f_equiv. apply Permutation_app_comm.
  - by etrans.
Qed.

Lemma total_size_Permutation (l l' : list (string * string)) :
  l ≡ₚ l' → total_size l = total_size l'.
Proof.
  unfold total_size.
  induction 1 as [|x l l' _ IH|x y l|l1 l2 l3 _ IH1 _ IH2]; simpl.
  - done.
  - by rewrite IH.
  - lia.
  - congruence.
Qed.

Lemma ordinary_iff (files : list (string * node)) :
  ordinary files ↔ NoDup files.*1 ∧ Forall ordinary_entry files.
Proof.
  split.
  - induction 1 as [|name content files Hs Hp Hout _ [IHn IHf]
                   |name sub files Hs Hout Hsub _ _ [IHn IHf]].
    + split; constructor.
    + split; [by constructor |]. by constructor.
    + split; [by constructor |]. by constructor.
  - induction files as [|[name nd] files IH]; intros [Hn Hf]; [constructor |].
    apply NoDup_cons in Hn as [Hout Hn]. apply Forall_cons in Hf as [He Hf].
    destruct He as [Hs He]. simpl in Hs, He. destruct nd as [readable content|sub].
    + destruct He as [-> Hp]. apply ordinary_file; auto.
    + apply ordinary_dir; auto.
Qed.

Lemma ordinary_Permutation (files files' : list (string * node)) :
  files ≡ₚ files' → ordinary files → ordinary files'.
Proof.
  intros Hp. rewrite !ordinary_iff. intros [Hn Hf]. split; by rewrite <- Hp.
Qed.

Section ListingOrder.
Variable md5_hex : string → string.

(** On an ordinary tree the hasher does not depend on the order in which a
    directory is listed (nor, therefore, on the order in which the
    concurrent callbacks finish): any reordering of the listing gives the
    same map and the same size. *)
Theorem filesMd5_order_independent (files files' : list (string * node)) :
  files ≡ₚ files' → ordinary files →
  filesMd5 md5_hex files = filesMd5 md5_hex files'.
Proof.
  intros Hp Hord. pose proof (ordinary_Permutation _ _ Hp Hord) as Hord'.
  rewrite !filesMd5_unfold.
  destruct (forEach_ordinary md5_hex files Hord (Hashes ∅ 0))
    as ([res sz] & -> & Hres & Hsize).
  destruct (forEach_ordinary md5_hex files' Hord' (Hashes ∅ 0))
    as ([res' sz'] & -> & Hres' & Hsize').
  cbn [resource hsize] in *. subst. f_equal. f_equal.
  - unfold expected. f_equal. apply list_to_map_proper.
    + rewrite digest_keys. by apply walk_NoDup.
    + apply fmap_Permutation. by apply walk_Permutation.
  - f_equal. apply total_size_Permutation. by apply walk_Permutation.
Qed.

End ListingOrder.

Lemma filesMd5_order_independent_witness :
  filesMd5 (λ s, s) [("a.png", File true "png"); ("sub", Dir [("b", File true "y")])]
  = filesMd5 (λ s, s) [("sub", Dir [("b", File true "y")]); ("a.png", File true "png")].
Proof.
  apply (filesMd5_order_independent (λ s, s)).
  - apply perm_swap.
  - apply ordinary_file; [reflexivity | discriminate | |].
    { apply (bool_decide_unpack _). vm_compute. exact I. }
    apply ordinary_dir; [reflexivity | apply not_elem_of_nil | | constructor].
    apply ordinary_file;
      [reflexivity | discriminate | apply not_elem_of_nil | constructor].
Defined.

(** ** The legacy builder on every templates directory *)

Lemma obj_set_lookup {V} (k k' : string) (v : V) (o : gmap string V) :
  obj_set k v o !! k'
  = if decide (k = k' ∧ k ≠ "__proto__") then Some v else o !! k'.
Proof.
  unfold obj_set. destruct (decide (k = "__proto__")) as [->|Hne].
  - rewrite decide_False; [done | tauto].
  - destruct (decide (k = k')) as [->|Hkk].
    + rewrite lookup_insert_eq. by rewrite decide_True.
    + rewrite lookup_insert_ne by done. rewrite decide_False; [done | tauto].
Qed.

Section LegacyBuilder.
Variable rootDir : string.
Variable JSON_parse : string → option value.

Abbreviation oldTemplate' := (oldTemplate JSON_parse).
Abbreviation oldTemplates' := (oldTemplates JSON_parse).
Abbreviation buildOld := (buildOldTemplateIndex rootDir JSON_parse).

Lemma oldTemplate_skip (m : oldMaps) (entry : string * node) :
  is_legacy entry = false → oldTemplate' m entry = Ok (m, false).
Proof.
  destruct entry as [name [readable content|files]]; [done |].
  unfold is_legacy. simpl. intros H. apply existsSync_false in H.
  unfold OLD_TEMPLATE_NAME in H. by rewrite H.
Qed.

Lemma oldTemplate_keep (m : oldMaps) (entry : string * node)
    (r : oldMaps * bool) :
  is_legacy entry = true → oldTemplate' m entry = Ok r →
  r.2 = true
  ∧ ∃ files file data alias type,
      entry.2 = Dir files
      ∧ assoc OLD_TEMPLATE_NAME files = Some file
      ∧ require JSON_parse file = Ok data
      ∧ get data "alias" = Ok alias
      ∧ get data "type" = Ok type
      ∧ r.1 = {| lengthMap := obj_set entry.1 (frames files) (lengthMap m);
                 aliasMap := obj_set entry.1 (nullish alias (VArr []))
                                     (aliasMap m);
                 typeMap := obj_set entry.1 (nullish type (VStr "Unknown"))
                                    (typeMap m) |}.
Proof.
  destruct entry as [name [readable content|files]]; [done |].
  unfold is_legacy. simpl. intros H. apply existsSync_true in H as [file Hfile].
  unfold OLD_TEMPLATE_NAME in *. rewrite Hfile. intros Hr.
  apply bind_ok in Hr as (text & Htext & Hr).
  apply bind_ok in Hr as (data & Hdata & Hr).
  apply bind_ok in Hr as (alias & Halias & Hr).
  apply bind_ok in Hr as (type & Htype & Hr). injection Hr as <-.
  split; [done |]. exists files, file, data, alias, type.
  repeat split; try done. unfold require. by rewrite Htext.
Qed.

Lemma oldTemplate_same (m : oldMaps) (entry : string * node)
    (r : oldMaps * bool) (name : string) :
  oldTemplate' m entry = Ok r →
  entry.1 ≠ name ∨ name = "__proto__" ∨ is_legacy entry = false →
  same_at m r.1 name.
Proof.
  intros Hr Hname. destruct (is_legacy entry) eqn:E.
  - apply (oldTemplate_keep _ _ _ E) in Hr
      as (_ & files & file & data & alias & type & _ & _ & _ & _ & _ & ->).
    unfold same_at. cbn [lengthMap aliasMap typeMap].
    rewrite !obj_set_lookup. rewrite !decide_False; [done | | |];
      intros [<- ?]; by destruct Hname as [?|[?|?]].
  - rewrite (oldTemplate_skip _ _ E) in Hr. injection Hr as <-. done.
Qed.

Lemma oldTemplate_all (m : oldMaps) (entry : string * node)
    (r : oldMaps * bool) :
  oldTemplate' m entry = Ok r → is_legacy entry = true →
  entry.1 ≠ "__proto__" → all_at r.1 entry.1.
Proof.
  intros Hr E Hne. apply (oldTemplate_keep _ _ _ E) in Hr
    as (_ & files & file & data & alias & type & _ & _ & _ & _ & _ & ->).
  unfold all_at. cbn [lengthMap aliasMap typeMap].
  rewrite !obj_set_lookup. by rewrite !decide_True.
Qed.

Lemma oldTemplates_kept (l : list (string * node)) :
  ∀ m r, oldTemplates' l m = Ok r → r.2 = (List.filter is_legacy l).*1.
Proof.
  induction l as [|entry l IH]; intros m r Hr; simpl in Hr.
  - by injection Hr as <-.
  - apply bind_ok in Hr as (r1 & Hr1 & Hr).
    apply bind_ok in Hr as (r2 & Hr2 & Hr). injection Hr as <-.
    apply IH in Hr2. cbn [snd List.filter]. destruct (is_legacy entry) eqn:E.
    + apply (oldTemplate_keep _ _ _ E) in Hr1 as [-> _].
      by rewrite fmap_cons, Hr2.
    + rewrite (oldTemplate_skip _ _ E) in Hr1. injection Hr1 as <-. done.
Qed.

Lemma same_at_trans (m1 m2 m3 : oldMaps) (name : string) :
  same_at m1 m2 name → same_at m2 m3 name → same_at m1 m3 name.
Proof. unfold same_at. intros (-> & -> & ->) (-> & -> & ->). done. Qed.

Lemma oldTemplates_same (l : list (string * node)) (name : string) :
  name ∉ (List.filter is_legacy l).*1 ∨ name = "__proto__" →
  ∀ m r, oldTemplates' l m = Ok r → same_at m r.1 name.
Proof.
  intros Hname. induction l as [|entry l IH]; intros m r Hr; simpl in Hr.
  - injection Hr as <-. done.
  - apply bind_ok in Hr as (r1 & Hr1 & Hr).
    apply bind_ok in Hr as (r2 & Hr2 & Hr). injection Hr as <-. cbn [fst].
    apply same_at_trans with (m2 := r1.1).
    + apply (oldTemplate_same _ _ _ _ Hr1).
      destruct Hname as [Hname|Hname]; [| auto].
      cbn [List.filter] in Hname. destruct (is_legacy entry); [| auto].
      left. rewrite fmap_cons, not_elem_of_cons in Hname. by destruct Hname.
    + apply IH; [| done]. destruct Hname as [Hname|Hname]; [| auto].
      left. cbn [List.filter] in Hname. destruct (is_legacy entry); [| done].
      rewrite fmap_cons, not_elem_of_cons in Hname. by destruct Hname.
Qed.

Lemma all_at_same (m m' : oldMaps) (name : string) :
  all_at m name → same_at m m' name → all_at m' name.
Proof. unfold all_at, same_at. intros (? & ? & ?) (-> & -> & ->). done. Qed.

Lemma oldTemplates_all (l : list (string * node)) (name : string) :
  name ∈ (List.filter is_legacy l).*1 → name ≠ "__proto__" →
  ∀ m r, oldTemplates' l m = Ok r → all_at r.1 name.
Proof.
  intros Hin Hne. induction l as [|entry l IH]; intros m r Hr; simpl in Hr.
  - inversion Hin.
  - apply bind_ok in Hr as (r1 & Hr1 & Hr).
    apply bind_ok in Hr as (r2 & Hr2 & Hr). injection Hr as <-. cbn [fst].
    destruct (decide (name ∈ (List.filter is_legacy l).*1)) as [Hl|Hl].
    { by apply (IH Hl r1.1). }
    cbn [List.filter] in Hin. destruct (is_legacy entry) eqn:E; [| done].
    rewrite fmap_cons in Hin. apply elem_of_cons in Hin as [->|Hin]; [| done].
    apply all_at_same with (m := r1.1).
    + by apply (oldTemplate_all m).
    + apply (oldTemplates_same l); [by left | done].
Qed.

Lemma oldTemplates_value (l : list (string * node)) (name : string)
    (files : list (string * node)) (file : node) :
  NoDup l.*1 → (name, Dir files) ∈ l → name ≠ "__proto__" →
  assoc OLD_TEMPLATE_NAME files = Some file →
  ∀ m r, oldTemplates' l m = Ok r →
  ∃ data alias type,
    require JSON_parse file = Ok data
    ∧ get data "alias" = Ok alias
    ∧ get data "type" = Ok type
    ∧ lengthMap r.1 !! name = Some (frames files)
    ∧ aliasMap r.1 !! name = Some (nullish alias (VArr []))
    ∧ typeMap r.1 !! name = Some (nullish type (VStr "Unknown")).
Proof.
  intros Hnd Hin Hne Hfile.
  induction l as [|entry l IH]; intros m r Hr; [inversion Hin |].
  simpl in Hr. apply bind_ok in Hr as (r1 & Hr1 & Hr).
  apply bind_ok in Hr as (r2 & Hr2 & Hr). injection Hr as <-. cbn [fst].
  rewrite fmap_cons in Hnd. apply NoDup_cons in Hnd as [Hout Hnd].
  apply elem_of_cons in Hin as [<-|Hin]; [| by apply (IH Hnd Hin r1.1)].
  assert (is_legacy (name, Dir files) = true) as E.
  { unfold is_legacy. simpl. apply existsSync_assoc. by rewrite Hfile. }
  apply (oldTemplate_keep _ _ _ E) in Hr1
    as (_ & files' & file' & data & alias & type & [= <-] & Hfile' & Hd & Ha
        & Ht & Hr1).
  rewrite Hfile in Hfile'. injection Hfile' as <-.
  exists data, alias, type. repeat split; try done.
  all: assert (same_at r1.1 r2.1 name) as (Hl & Hal & Hty)
    by (apply (oldTemplates_same l); [left | done];
        intros H; apply Hout; apply list_elem_of_fmap in H as (e & -> & He);
        apply list_elem_of_fmap; exists e; split; [done |];
        apply list_elem_of_In; apply list_elem_of_In in He;
        by apply List.filter_In in He as [? _]).
  - rewrite Hl, Hr1. cbn [lengthMap fst]. rewrite obj_set_lookup.
    by rewrite decide_True.
  - rewrite Hal, Hr1. cbn [aliasMap fst]. rewrite obj_set_lookup.
    by rewrite decide_True.
  - rewrite Hty, Hr1. cbn [typeMap fst]. rewrite obj_set_lookup.
    by rewrite decide_True.
Qed.

Lemma oldTemplates_skip (pre post : list (string * node))
    (entry : string * node) (m : oldMaps) :
  is_legacy entry = false →
  oldTemplates' (pre ++ entry :: post)%list m = oldTemplates' (pre ++ post)%list m.
Proof.
  intros E. revert m. induction pre as [|x pre IH]; intros m; simpl.
  - rewrite (oldTemplate_skip _ _ E). simpl.
    destruct (oldTemplates' post m) as [[m' kept]|]; done.
  - destruct (oldTemplate' m x) as [r|]; [| done]. simpl. by rewrite IH.
Qed.

Lemma oldTemplates_fails (l : list (string * node)) (entry : string * node) :
  entry ∈ l → (∀ m, is_ok (oldTemplate' m entry) = false) →
  ∀ m, is_ok (oldTemplates' l m) = false.
Proof.
  intros Hin Hfail. induction l as [|x l IH]; intros m; [inversion Hin |].
  simpl. apply elem_of_cons in Hin as [<-|Hin].
  - specialize (Hfail m). by destruct (oldTemplate' m entry).
  - destruct (oldTemplate' m x) as [r|]; [| done]. simpl.
    specialize (IH Hin r.1). by destruct (oldTemplates' l r.1).
Qed.

(** The outputs of the legacy builder, whenever it returns: index.json
    lists, in listing order, the names of the directories in which
    data.json exists, and the names of the fonts directory the font pattern
    accepts; the three maps of index.map.json have an entry for exactly the
    listed directories, the name __proto__ apart, and for nothing else. *)
Theorem legacy_index_lists (config : Config) (w : world)
    (docs : gmap string document) :
  buildOld config w = Ok docs →
  ∃ entries fonts m,
    templatesDir w = Some entries
    ∧ fontsDir w = Some fonts
    ∧ docs = <[path_join (path_join rootDir (basePath config)) "index.map.json" :=
                 IndexMapJson (lengthMap m) (aliasMap m) (typeMap m)]>
             (<[path_join (path_join rootDir (basePath config)) "index.json" :=
                  IndexJson (oldTargetVersion config) (path config)
                            (List.filter is_legacy entries).*1
                            (List.filter match_font (fonts.*1))]> ∅)
    ∧ ∀ name,
        (name ∈ (List.filter is_legacy entries).*1 → name ≠ "__proto__" →
         all_at m name)
        ∧ (name ∉ (List.filter is_legacy entries).*1 ∨ name = "__proto__" →
           none_at m name).
Proof.
  unfold buildOldTemplateIndex. intros H.
  apply bind_ok in H as (entries & Hentries & H).
  apply bind_ok in H as (r & Hr & H).
  apply bind_ok in H as (fonts & Hfonts & H). injection H as <-.
  destruct (templatesDir w) as [entries'|]; [| discriminate].
  injection Hentries as ->.
  destruct (fontsDir w) as [fonts'|]; [| discriminate].
  injection Hfonts as ->.
  exists entries, fonts, r.1. split; [done |]. split; [done |].
  rewrite (oldTemplates_kept _ _ _ Hr). split; [done |].
  intros name. split.
  - intros Hin Hne. exact (oldTemplates_all entries name Hin Hne _ r Hr).
  - intros Hname.
    destruct (oldTemplates_same entries name Hname _ r Hr)
      as (Hl & Ha & Ht).
    unfold none_at. by rewrite Hl, Ha, Ht.
Qed.

(** What index.map.json holds for one legacy template, names in the
    templates directory being distinct: its length entry is the number of
    entries of the directory the frame pattern accepts, its alias entry
    the alias of data.json, or the empty array when that is missing or
    null, its type entry the type of data.json, or "Unknown" when that is
    missing or null. *)
Theorem legacy_entry_values (config : Config) (w : world)
    (docs : gmap string document) (entries files : list (string * node))
    (name : string) (file : node) :
  buildOld config w = Ok docs →
  templatesDir w = Some entries → NoDup entries.*1 →
  (name, Dir files) ∈ entries → name ≠ "__proto__" →
  assoc OLD_TEMPLATE_NAME files = Some file →
  ∃ data alias type lengths aliases types,
    require JSON_parse file = Ok data
    ∧ get data "alias" = Ok alias
    ∧ get data "type" = Ok type
    ∧ docs !! path_join (path_join rootDir (basePath config)) "index.map.json"
      = Some (IndexMapJson lengths aliases types)
    ∧ lengths !! name = Some (frames files)
    ∧ aliases !! name = Some (nullish alias (VArr []))
    ∧ types !! name = Some (nullish type (VStr "Unknown")).
Proof.
  unfold buildOldTemplateIndex. intros H Hdir Hnd Hin Hne Hfile.
  rewrite Hdir in H. simpl in H. apply bind_ok in H as (r & Hr & H).
  apply bind_ok in H as (fonts & _ & H). injection H as <-.
  destruct (oldTemplates_value entries name files file Hnd Hin Hne Hfile _ r Hr)
    as (data & alias & type & Hd & Ha & Ht & Hl & Hal & Hty).
  exists data, alias, type, (lengthMap r.1), (aliasMap r.1), (typeMap r.1).
  repeat split; try done. apply lookup_insert_eq.
Qed.

(** Plain files and directories without data.json do not count for the
    legacy builder: it ends as it does on the templates directory without
    such an entry. *)
Theorem legacy_ignores_other_entries (config : Config) (w : world)
    (pre post : list (string * node)) (entry : string * node) :
  templatesDir w = Some (pre ++ entry :: post)%list →
  is_legacy entry = false →
  buildOld config w = buildOld config (without_entry w pre post).
Proof.
  intros Hdir E. unfold buildOldTemplateIndex, without_entry. simpl.
  rewrite Hdir. simpl. by rewrite (oldTemplates_skip _ _ _ _ E).
Qed.

(** A data.json that cannot be read or parsed makes the legacy builder
    fail, whatever else the directory holds. *)
Lemma legacy_definition_fails (config : Config) (w : world)
    (entries files : list (string * node)) (name : string) (file : node) :
  templatesDir w = Some entries → (name, Dir files) ∈ entries →
  assoc OLD_TEMPLATE_NAME files = Some file →
  is_ok (require JSON_parse file) = false →
  is_ok (buildOld config w) = false.
Proof.
  intros Hdir Hin Hfile Hreq. unfold buildOldTemplateIndex. rewrite Hdir. simpl.
  assert (is_ok (oldTemplates' entries (Build_oldMaps ∅ ∅ ∅)) = false) as Hf.
  { apply (oldTemplates_fails entries (name, Dir files) Hin). intros m.
    unfold oldTemplate. unfold OLD_TEMPLATE_NAME in Hfile. rewrite Hfile.
    unfold require in Hreq. destruct (readFileSync file) as [text|]; [| done].
    simpl in *. by destruct (parse JSON_parse text). }
  by destruct (oldTemplates' entries _).
Qed.

End LegacyBuilder.

Lemma legacy_index_lists_witness :
  ∃ docs, buildOldTemplateIndex "/repo" sample_parse sample_config mixed_world
          = Ok docs
    ∧ ∃ m,
        docs = <["/repo/data/index.map.json" :=
                   IndexMapJson (lengthMap m) (aliasMap m) (typeMap m)]>
               (<["/repo/data/index.json" :=
                    IndexJson 3 "templates" ["bare"] ["a.ttf"]]> ∅)
        ∧ all_at m "bare" ∧ none_at m "scripted".
Proof.
  eexists. split; [reflexivity |].
  destruct (legacy_index_lists "/repo" sample_parse sample_config mixed_world
              _ eq_refl) as (entries & fonts & m & He & Hf & Hdocs & Hm).
  injection He as <-. injection Hf as <-.
  exists m. split; [exact Hdocs |]. split.
  - apply Hm; [left | discriminate].
  - apply Hm. left. apply (bool_decide_unpack _). vm_compute. exact I.
Defined.

Lemma legacy_entry_values_witness :
  ∃ docs, buildOldTemplateIndex "/repo" sample_parse sample_config mixed_world
          = Ok docs
    ∧ ∃ lengths aliases types,
        docs !! "/repo/data/index.map.json"
        = Some (IndexMapJson lengths aliases types)
        ∧ lengths !! "bare" = Some 1
        ∧ aliases !! "bare" = Some (VArr [])
        ∧ types !! "bare" = Some (VStr "Unknown").
Proof.
  eexists. split; [reflexivity |].
  destruct (legacy_entry_values "/repo" sample_parse sample_config mixed_world
              _ mixed_entries
              [("data.json", File true "{}"); ("10.png", File true "p")]
              "bare" (File true "{}") eq_refl eq_refl)
    as (data & alias & type & lengths & aliases & types
        & Hd & Ha & Ht & Hdocs & Hl & Hal & Hty).
  - apply (bool_decide_unpack _). vm_compute. exact I.
  - right. left.
  - discriminate.
  - reflexivity.
  - injection Hd as <-. injection Ha as <-. injection Ht as <-.
    exists lengths, aliases, types. repeat split; assumption.
Defined.

Lemma legacy_ignores_other_entries_witness :
  buildOldTemplateIndex "/repo" sample_parse sample_config mixed_world
  = buildOldTemplateIndex "/repo" sample_parse sample_config
      (without_entry mixed_world [] (tail mixed_entries)).
Proof.
  exact (legacy_ignores_other_entries "/repo" sample_parse sample_config
           mixed_world [] (tail mixed_entries) ("readme.txt", File true "hello")
           eq_refl eq_refl).
Defined.

(** ** The run as a whole *)

Lemma uniq_from_NoDup {A} `{EqDecision A} (seen l : list A) :
  NoDup l → (∀ x, x ∈ l → x ∉ seen) → uniq_from seen l = l.
Proof.
  revert seen. induction l as [|x l IH]; intros seen Hnd Hseen; [done |].
  apply NoDup_cons in Hnd as [Hx Hnd]. simpl.
  rewrite decide_False by (apply Hseen; left). f_equal. apply IH; [done |].
  intros y Hy. rewrite not_elem_of_cons. split.
  - intros ->. done.
  - apply Hseen. by right.
Qed.

Lemma uniq_NoDup {A} `{EqDecision A} (l : list A) : NoDup l → uniq l = l.
Proof.
  intros Hnd. apply uniq_from_NoDup; [done |]. intros x _. apply not_elem_of_nil.
Qed.

Lemma path_join_inj (base a b : string) :
  path_join base a = path_join base b → a = b.
Proof. unfold path_join. apply (inj (λ p, base ++ "/" ++ p)). Qed.

Section Run.
Variable md5_hex : string → string.
Variable fontkit_open : string → option Font.
Variable rootDir : string.
Variable JSON_parse : string → option value.
Variable eval_script : string → script_outcome.
Variable write_error : string → option error.

Abbreviation build :=
  (buildTemplateIndex md5_hex fontkit_open rootDir JSON_parse eval_script).
Abbreviation buildOld := (buildOldTemplateIndex rootDir JSON_parse).
Abbreviation main' :=
  (main md5_hex fontkit_open rootDir JSON_parse eval_script write_error).

(** A run in which both builders return writes three files below the
    base path, in this order: index.json, index.map.json and
    petpet-index.json, each with what its builder returned for it and over
    whatever was there.  When the three writes succeed the run ends without
    error and every other path of the disk is as it was.  When a write
    throws, the run ends with that error: the files before it in the order
    are written, the file itself and those after it are not. *)
Theorem main_writes_three_files (config : Config) (w : world)
    (disk old new : gmap string document) :
  buildOld config w = Ok old → build config w = Ok new →
  let base := path_join rootDir (basePath config) in
  let index := path_join base "index.json" in
  let map := path_join base "index.map.json" in
  let manifest := path_join base "petpet-index.json" in
  dom old = {[ index; map ]}
  ∧ dom new = {[ manifest ]}
  ∧ (write_error index = None → write_error map = None →
     write_error manifest = None →
     main' config w disk = (Ok (), new ∪ old ∪ disk)
     ∧ (new ∪ old ∪ disk) !! index = old !! index
     ∧ (new ∪ old ∪ disk) !! map = old !! map
     ∧ (new ∪ old ∪ disk) !! manifest = new !! manifest
     ∧ ∀ p, p ≠ index → p ≠ map → p ≠ manifest →
            (new ∪ old ∪ disk) !! p = disk !! p)
  ∧ (∀ e, write_error index = Some e →
          main' config w disk = (Throw e, disk))
  ∧ (∀ e, write_error index = None → write_error map = Some e →
          ∃ data, old !! index = Some data
            ∧ main' config w disk = (Throw e, <[index := data]> disk))
  ∧ (∀ e, write_error index = None → write_error map = None →
          write_error manifest = Some e →
          main' config w disk = (Throw e, old ∪ disk)).
Proof.
  intros Hold Hnew base index map manifest.
  assert (dom old = {[ index; map ]}) as Hdo.
  { unfold buildOldTemplateIndex in Hold.
    apply bind_ok in Hold as (entries & _ & Hold).
    apply bind_ok in Hold as (r & _ & Hold).
    apply bind_ok in Hold as (fonts & _ & Hold). injection Hold as <-.
    rewrite !dom_insert_L, dom_empty_L. fold base index map. set_solver. }
  assert (dom new = {[ manifest ]}) as Hdn.
  { apply build_manifest in Hnew as (ids & templates & fonts & _ & -> & _).
    by rewrite dom_singleton_L. }
  assert (∀ p, p ≠ manifest → new !! p = None) as Hn.
  { intros p Hp. apply not_elem_of_dom. rewrite Hdn. set_solver. }
  assert (∀ p, p ≠ index → p ≠ map → old !! p = None) as Ho.
  { intros p Hp1 Hp2. apply not_elem_of_dom. rewrite Hdo. set_solver. }
  assert (index ≠ map) as H12 by (intros H; by apply path_join_inj in H).
  assert (index ≠ manifest) as H13 by (intros H; by apply path_join_inj in H).
  assert (map ≠ manifest) as H23 by (intros H; by apply path_join_inj in H).
  assert (is_Some (old !! index)) as [d1 Hd1]
    by (apply elem_of_dom; rewrite Hdo; set_solver).
  assert (is_Some (old !! map)) as [d2 Hd2]
    by (apply elem_of_dom; rewrite Hdo; set_solver).
  assert (is_Some (new !! manifest)) as [d3 Hd3]
    by (apply elem_of_dom; rewrite Hdn; set_solver).
  assert ((new ∪ old) !! index = Some d1) as Hr1
    by (rewrite lookup_union_r; auto).
  assert ((new ∪ old) !! map = Some d2) as Hr2
    by (rewrite lookup_union_r; auto).
  assert ((new ∪ old) !! manifest = Some d3) as Hr3
    by (by apply lookup_union_Some_l).
  assert (main' config w disk
          = writeAll write_error [index; map; manifest] (new ∪ old) disk)
    as Hmain.
  { unfold main. rewrite Hold, Hnew. cbn [mbind res_bind].
    change (oldKeys rootDir config ++ newKeys rootDir config)%list
      with [index; map; manifest].
    rewrite uniq_NoDup; [done |].
    repeat (apply NoDup_cons; split); [set_solver | set_solver | set_solver |].
    apply NoDup_nil_2. }
  assert (<[map := d2]> (<[index := d1]> disk) = old ∪ disk) as Htwo.
  { apply map_eq. intros p.
    destruct (decide (p = map)) as [->|Hp2].
    { rewrite lookup_insert_eq. symmetry. by apply lookup_union_Some_l. }
    rewrite lookup_insert_ne by done.
    destruct (decide (p = index)) as [->|Hp1].
    { rewrite lookup_insert_eq. symmetry. by apply lookup_union_Some_l. }
    rewrite lookup_insert_ne by done. symmetry. apply lookup_union_r. auto. }
  assert (<[manifest := d3]> (old ∪ disk) = new ∪ old ∪ disk) as Hthree.
  { apply map_eq. intros p. rewrite <- (assoc_L (∪)).
    destruct (decide (p = manifest)) as [->|Hp3].
    { rewrite lookup_insert_eq. symmetry. by apply lookup_union_Some_l. }
    rewrite lookup_insert_ne by done. symmetry. apply lookup_union_r. auto. }
  split; [done |]. split; [done |].
  rewrite Hmain. cbn [writeAll]. rewrite Hr1, Hr2, Hr3. unfold writeFileSync.
  split; [| split; [| split]].
  - intros -> -> ->. rewrite Htwo, Hthree. split; [done |].
    repeat split.
    + rewrite Hd1. apply lookup_union_Some_l. rewrite lookup_union_r; auto.
    + rewrite Hd2. apply lookup_union_Some_l. rewrite lookup_union_r; auto.
    + rewrite Hd3. apply lookup_union_Some_l. by apply lookup_union_Some_l.
    + intros p Hp1 Hp2 Hp3. rewrite lookup_union_r; [done |].
      apply lookup_union_None. auto.
  - by intros e ->.
  - intros e -> ->. by exists d1.
  - intros e -> -> ->. by rewrite Htwo.
Qed.

(** The legacy builder runs first and reads data.json wherever it exists:
    a data.json that cannot be read or parsed ends the run with an error
    and nothing written, even in a directory the template builder would
    classify by its main.js or template.json without looking at
    data.json. *)
Theorem legacy_failure_blocks_run (config : Config) (w : world)
    (disk : gmap string document) (entries files : list (string * node))
    (name : string) (file : node) :
  templatesDir w = Some entries → (name, Dir files) ∈ entries →
  assoc OLD_TEMPLATE_NAME files = Some file →
  is_ok (require JSON_parse file) = false →
  ∃ e, main' config w disk = (Throw e, disk).
Proof.
  intros Hdir Hin Hfile Hreq.
  pose proof (legacy_definition_fails rootDir JSON_parse config w entries files
                name file Hdir Hin Hfile Hreq) as Hf.
  apply is_ok_false in Hf as [e Hf]. exists e. unfold main. by rewrite Hf.
Qed.

End Run.

Lemma main_writes_three_files_witness :
  ∃ old new data,
    buildOldTemplateIndex "/repo" sample_parse sample_config silent_world = Ok old
    ∧ sample_build silent_world = Ok new
    ∧ sample_main silent_world {[ "/repo/data/keep.txt" := IndexMapJson ∅ ∅ ∅ ]}
      = (Ok (), new ∪ old ∪ {[ "/repo/data/keep.txt" := IndexMapJson ∅ ∅ ∅ ]})
    ∧ (new ∪ old ∪ {[ "/repo/data/keep.txt" := IndexMapJson ∅ ∅ ∅ ]})
        !! "/repo/data/keep.txt"
      = Some (IndexMapJson ∅ ∅ ∅)
    ∧ old !! "/repo/data/index.json" = Some data
    ∧ main (λ s, s) (λ _, None) "/repo" sample_parse sample_eval readonly_map
        sample_config silent_world ∅
      = (Throw (EIO "EACCES"), {[ "/repo/data/index.json" := data ]}).
Proof.
  destruct (main_writes_three_files (λ s, s) (λ _, None) "/repo" sample_parse
              sample_eval readonly_map sample_config silent_world ∅ _ _
              eq_refl eq_refl) as (_ & _ & _ & _ & Hstop & _).
  destruct (Hstop (EIO "EACCES") eq_refl eq_refl) as (data & Hdata & Hmain).
  do 2 eexists. exists data. split; [reflexivity |]. split; [reflexivity |].
  destruct (main_writes_three_files (λ s, s) (λ _, None) "/repo" sample_parse
              sample_eval (λ _, None) sample_config silent_world
              {[ "/repo/data/keep.txt" := IndexMapJson ∅ ∅ ∅ ]} _ _
              eq_refl eq_refl) as (_ & _ & Hall & _).
  destruct (Hall eq_refl eq_refl eq_refl) as (Hok & _ & _ & _ & Hframe).
  split; [exact Hok |]. split.
  - rewrite Hframe; [reflexivity | discriminate | discriminate | discriminate].
  - split; [exact Hdata | exact Hmain].
Defined.

Lemma legacy_failure_blocks_run_witness :
  is_ok (sample_build torn_world) = true
  ∧ ∃ e, sample_main torn_world ∅ = (Throw e, ∅).
Proof.
  split; [reflexivity |].
  apply (legacy_failure_blocks_run (λ s, s) (λ _, None) "/repo" sample_parse
           sample_eval (λ _, None) sample_config torn_world ∅ _
           [("main.js", File true "register(() => ({}))");
            ("data.json", File true "{oops")]
           "torn" (File true "{oops") eq_refl).
  - left.
  - reflexivity.
  - reflexivity.
Defined.

(** ** The font index *)

Lemma match_font_not_proto (name : string) :
  match_font name = true → name ≠ "__proto__".
Proof. intros H ->. discriminate. Qed.

Lemma elem_of_filter_fst {B} (P : string → bool) (l : list (string * B))
    (name : string) :
  name ∈ (List.filter (λ e, P e.1) l).*1 ↔ name ∈ l.*1 ∧ P name = true.
Proof.
  rewrite !list_elem_of_fmap. split.
  - intros ([n b] & -> & H). apply list_elem_of_In, List.filter_In in H as [H ?].
    split; [| done]. exists (n, b). split; [done |]. by apply list_elem_of_In.
  - intros [([n b] & -> & H) HP]. exists (n, b). split; [done |].
    apply list_elem_of_In, List.filter_In. split; [| done].
    by apply list_elem_of_In.
Qed.

Lemma NoDup_filter_fst {B} (P : string → bool) (l : list (string * B)) :
  NoDup l.*1 → NoDup (List.filter (λ e, P e.1) l).*1.
Proof.
  induction l as [|[n b] l IH]; simpl; [done |].
  intros Hnd. apply NoDup_cons in Hnd as [Hout Hnd].
  destruct (P n) eqn:E; [| auto]. rewrite fmap_cons. apply NoDup_cons.
  split; [| auto]. intros Hin. apply elem_of_filter_fst in Hin as [? _]. done.
Qed.

Section FontIndex.
Variable md5_hex : string → string.
Variable fontkit_open : string → option Font.
Variable rootDir : string.
Variable JSON_parse : string → option value.
Variable eval_script : string → script_outcome.

Abbreviation indexFont' := (indexFont md5_hex fontkit_open).
Abbreviation getFontInfo' := (getFontInfo fontkit_open).
Abbreviation build :=
  (buildTemplateIndex md5_hex fontkit_open rootDir JSON_parse eval_script).

Lemma indexFont_ok (st st' : gmap string string * gmap string fontEntry)
    (font : string) (nd : node) :
  indexFont' st (font, nd) = Ok st' →
  ∃ bytes info,
    nd = File true bytes
    ∧ getFontInfo' (File true bytes) = Ok info
    ∧ st' = (foldl (λ m n, <[n := font]> m) st.1 info,
             obj_set font {| f_md5 := md5_hex bytes; f_size := stat_size bytes;
                             f_name := info |} st.2).
Proof.
  destruct st as [fontNameMap resultFontObj]. unfold indexFont.
  intros H. apply bind_ok in H as (bytes & Hbytes & H).
  destruct nd as [[|] content|]; try discriminate. injection Hbytes as ->.
  apply bind_ok in H as (info & Hinfo & H). simpl in H. injection H as <-.
  by exists bytes, info.
Qed.

Lemma index_fonts_entries (l : list (string * node)) :
  NoDup l.*1 → Forall (λ e, e.1 ≠ "__proto__") l →
  ∀ st st', forEachM indexFont' l st = Ok st' →
    (∀ name, name ∉ l.*1 → st'.2 !! name = st.2 !! name)
    ∧ (∀ name nd, (name, nd) ∈ l →
         ∃ bytes info,
           nd = File true bytes
           ∧ getFontInfo' (File true bytes) = Ok info
           ∧ st'.2 !! name
             = Some {| f_md5 := md5_hex bytes; f_size := stat_size bytes;
                       f_name := info |}).
Proof.
  induction l as [|[font nd] l IH]; intros Hnd Hproto st st' H.
  - injection H as <-. split; [done |]. intros ? ? Hin. inversion Hin.
  - cbn [forEachM] in H. apply bind_ok in H as (st1 & Hst1 & H).
    rewrite fmap_cons in Hnd. apply NoDup_cons in Hnd as [Hout Hnd].
    apply Forall_cons in Hproto as [Hfont Hproto]. simpl in Hfont.
    destruct (IH Hnd Hproto _ _ H) as [Hother Hmine].
    apply indexFont_ok in Hst1 as (bytes & info & -> & Hinfo & ->).
    cbn [fst snd] in *. split.
    + intros name Hname. rewrite fmap_cons, not_elem_of_cons in Hname.
      destruct Hname as [Hne Hname]. rewrite (Hother _ Hname).
      rewrite obj_set_lookup. rewrite decide_False; [done |].
      intros [-> _]. by apply Hne.
    + intros name nd' Hin. apply elem_of_cons in Hin as [[= -> ->]|Hin].
      * exists bytes, info. split; [done |]. split; [done |].
        rewrite (Hother _ Hout), obj_set_lookup. by rewrite decide_True.
      * by apply Hmine.
Qed.

(** The fonts object of the manifest, names in the fonts directory being
    distinct: it has an entry for exactly the names the font pattern
    accepts, and the entry of a name holds the digest of that file's
    bytes, their number, and the names getFontInfo returns for it. *)
Theorem manifest_fonts (config : Config) (w : world)
    (docs : gmap string document) (fontFiles : list (string * node)) :
  build config w = Ok docs →
  fontsDir w = Some fontFiles → NoDup fontFiles.*1 →
  ∃ templates fonts,
    docs = {[ path_join (path_join rootDir (basePath config))
                        "petpet-index.json" :=
                PetpetIndexJson (path config) templates
                                (fontsPath config) fonts ]}
    ∧ (∀ name, is_Some (fonts !! name)
               ↔ name ∈ fontFiles.*1 ∧ match_font name = true)
    ∧ (∀ name entry, fonts !! name = Some entry →
         ∃ bytes, (name, File true bytes) ∈ fontFiles
           ∧ f_md5 entry = md5_hex bytes
           ∧ f_size entry = stat_size bytes
           ∧ getFontInfo' (File true bytes) = Ok (f_name entry)).
Proof.
  unfold buildTemplateIndex. intros H Hdir Hnd. rewrite Hdir in H. simpl in H.
  apply bind_ok in H as (st & Hst & H).
  apply bind_ok in H as (ids & _ & H).
  apply bind_ok in H as (tl & _ & H). injection H as <-.
  do 2 eexists. split; [reflexivity |].
  destruct (index_fonts_entries _ (NoDup_filter_fst match_font _ Hnd)) with
    (st := (∅ : gmap string string, ∅ : gmap string fontEntry)) (st' := st)
    as [Hother Hmine]; [| done |].
  { apply Forall_forall. intros [n nd] Hin. simpl.
    apply match_font_not_proto.
    apply list_elem_of_In, List.filter_In in Hin as [_ ?]. done. }
  assert (∀ name entry, st.2 !! name = Some entry →
            ∃ bytes, (name, File true bytes) ∈ fontFiles
              ∧ match_font name = true
              ∧ entry = {| f_md5 := md5_hex bytes; f_size := stat_size bytes;
                           f_name := f_name entry |}
              ∧ getFontInfo' (File true bytes) = Ok (f_name entry)) as Hentry.
  { intros name entry He.
    destruct (decide (name ∈ (List.filter (λ e, match_font e.1) fontFiles).*1))
      as [Hin|Hout].
    - apply list_elem_of_fmap in Hin as ([n nd] & -> & Hin). simpl in He.
      destruct (Hmine _ _ Hin) as (bytes & info & -> & Hinfo & Hget).
      rewrite Hget in He. injection He as <-.
      apply list_elem_of_In, List.filter_In in Hin as [Hin Hm].
      exists bytes. split; [by apply list_elem_of_In |]. done.
    - rewrite (Hother _ Hout) in He. cbn [snd] in He.
      by rewrite lookup_empty in He. }
  split.
  - intros name. split.
    + intros [entry He]. apply Hentry in He as (bytes & Hin & Hm & _).
      split; [| done]. apply list_elem_of_fmap. by exists (name, File true bytes).
    + intros Hname. apply (elem_of_filter_fst match_font) in Hname.
      apply list_elem_of_fmap in Hname as ([n nd] & -> & Hin).
      destruct (Hmine _ _ Hin) as (bytes & info & _ & _ & Hget).
      simpl. by rewrite Hget.
  - intros name entry He. apply Hentry in He as (bytes & Hin & _ & -> & Hinfo).
    by exists bytes.
Qed.

Lemma forEachM_fails {A S} (f : S → A → res S) (l : list A) (x : A) :
  x ∈ l → (∀ s, is_ok (f s x) = false) → ∀ s, is_ok (forEachM f l s) = false.
Proof.
  intros Hin Hx. induction l as [|y l IH]; intros s; [inversion Hin |].
  simpl. apply elem_of_cons in Hin as [<-|Hin].
  - specialize (Hx s). by destruct (f s x).
  - destruct (f s y) as [s'|]; [| done]. simpl. by apply IH.
Qed.

(** Every name of the fonts directory the font pattern accepts has to be a
    file that can be read and from which getFontInfo returns: one that is
    a directory, cannot be read, is no font or lacks a name makes the
    whole build fail. *)
Theorem bad_font_fails_build (config : Config) (w : world)
    (fontFiles : list (string * node)) (font : string) (nd : node) :
  fontsDir w = Some fontFiles → (font, nd) ∈ fontFiles →
  match_font font = true →
  is_ok (getFontInfo' nd) = false →
  ∃ e, build config w = Throw e.
Proof.
  intros Hdir Hin Hm Hbad. apply is_ok_false. unfold buildTemplateIndex.
  rewrite Hdir. simpl.
  assert (is_ok (forEachM indexFont'
                   (List.filter (λ e, match_font e.1) fontFiles) (∅, ∅)) = false)
    as Hf.
  { apply (forEachM_fails _ _ (font, nd)).
    - apply list_elem_of_In, List.filter_In. split; [| done].
      by apply list_elem_of_In.
    - intros [fm fo]. unfold indexFont.
      destruct (readFileSync nd); [| done]. simpl.
      by destruct (getFontInfo' nd). }
  by destruct (forEachM _ _ _).
Qed.

(** Names of the fonts directory the font pattern does not accept are not
    looked at: the build ends as it does on the fonts directory without
    such an entry. *)
Theorem other_files_in_fonts_ignored (config : Config) (w : world)
    (pre post : list (string * node)) (entry : string * node) :
  fontsDir w = Some (pre ++ entry :: post)%list →
  match_font entry.1 = false →
  build config w
  = build config {| templatesDir := templatesDir w;
                    fontsDir := Some (pre ++ post)%list |}.
Proof.
  intros Hdir Hm. unfold buildTemplateIndex. rewrite Hdir. simpl.
  rewrite !List.filter_app. simpl. by rewrite Hm.
Qed.

End FontIndex.

Lemma manifest_fonts_witness :
  ∃ docs, font_build font_world = Ok docs
    ∧ ∃ templates fonts,
        docs = {[ "/repo/data/petpet-index.json" :=
                    PetpetIndexJson "templates" templates "fonts" fonts ]}
        ∧ is_Some (fonts !! "arial.ttf")
        ∧ ¬ is_Some (fonts !! "notes.txt").
Proof.
  eexists. split; [reflexivity |].
  destruct (manifest_fonts (λ s, s) sample_fontkit "/repo" sample_parse
              sample_eval sample_config font_world _ font_files
              eq_refl eq_refl)
    as (templates & fonts & Hdocs & Hdom & _).
  { apply (bool_decide_unpack _). vm_compute. exact I. }
  exists templates, fonts. split; [exact Hdocs |]. split.
  - apply Hdom. split; [| reflexivity].
    apply (bool_decide_unpack _). vm_compute. exact I.
  - intros H. apply Hdom in H as [_ H]. discriminate H.
Defined.

Lemma bad_font_fails_build_witness :
  ∃ e, font_build junk_font_world = Throw e.
Proof.
  apply (bad_font_fails_build (λ s, s) sample_fontkit "/repo" sample_parse
           sample_eval sample_config junk_font_world _
           "junk.woff2" (File true "not a font") eq_refl).
  - right. left.
  - reflexivity.
  - reflexivity.
Defined.

Lemma other_files_in_fonts_ignored_witness :
  font_build font_world
  = font_build {| templatesDir := Some [foo_template];
                  fontsDir := Some (tail font_files) |}.
Proof.
  exact (other_files_in_fonts_ignored (λ s, s) sample_fontkit "/repo"
           sample_parse sample_eval sample_config font_world
           [] (tail font_files) ("notes.txt", File true "n") eq_refl eq_refl).
Defined.

(** ** The templates of the manifest *)





Section ManifestTemplates.
Variable md5_hex : string → string.
Variable fontkit_open : string → option Font.
Variable rootDir : string.
Variable JSON_parse : string → option value.
Variable eval_script : string → script_outcome.

Abbreviation templateOf' := (templateOf md5_hex JSON_parse eval_script).
Abbreviation indexFont' := (indexFont md5_hex fontkit_open).
Abbreviation getFontInfo' := (getFontInfo fontkit_open).
Abbreviation build :=
  (buildTemplateIndex md5_hex fontkit_open rootDir JSON_parse eval_script).







End ManifestTemplates.



(** ** The dependency search, exactly *)

Lemma allM_elem {A B} (f : A → res B) (l : list A) (ys : list B) (y : B) :
  allM f l = Ok ys → (y ∈ ys ↔ ∃ x, x ∈ l ∧ f x = Ok y).
Proof.
  intros H. apply allM_ok in H.
  induction H as [|x y' l ys Hx _ IH].
  - split; [intros Hy; inversion Hy | intros (x & Hx & _); inversion Hx].
  - rewrite elem_of_cons, IH. split.
    + intros [->|(x' & Hin & Hx')].
      * exists x. split; [left | done].
      * exists x'. split; [by right | done].
    + intros (x' & Hin & Hx'). apply elem_of_cons in Hin as [->|Hin].
      * left. congruence.
      * right. by exists x'.
Qed.

Lemma search_exact (keep : value → res bool) (fontMap : gmap string string)
    (items : list value) (deps : list (option string)) :
  search keep fontMap (VArr items) = Ok deps →
  NoDup deps
  ∧ ∀ x, x ∈ deps
         ↔ ∃ e, e ∈ items ∧ keep e = Ok true ∧ lookup_font fontMap e = Ok x.
Proof.
  unfold search. intros H. apply bind_ok in H as (kept & Hkept & H).
  apply bind_ok in H as (found & Hfound & H). injection H as <-.
  split; [apply NoDup_uniq |]. intros x.
  rewrite elem_of_uniq, (allM_elem _ _ _ _ Hfound). split.
  - intros (e & He & Hx). apply (filterM_ok _ _ _ Hkept) in He as [He Hk].
    by exists e.
  - intros (e & He & Hk & Hx). exists e. split; [| done].
    by apply (filterM_ok _ _ _ Hkept).
Qed.

(** What a dependency search returns when the template has an array of
    elements (resp. of legacy text entries): each lookup result of an
    entry that is kept, a text element with a font (resp. a text entry
    with a font), once, and nothing else.  So the list is empty exactly
    when no entry is kept, and holds undefined exactly when a kept entry
    names a font the index does not know. *)
Theorem dependent_fonts_exact (fontMap : gmap string string) (template : value)
    (items : list value) (deps : list (option string)) :
  (get template "elements" = Ok (VArr items) →
   searchTemplateDependencyFont fontMap template = Ok deps →
   NoDup deps
   ∧ ∀ x, x ∈ deps
          ↔ ∃ e, e ∈ items ∧ is_text_with_font e = Ok true
                 ∧ lookup_font fontMap e = Ok x)
  ∧ (get template "text" = Ok (VArr items) →
     searchOldTemplateDependencyFont fontMap template = Ok deps →
     NoDup deps
     ∧ ∀ x, x ∈ deps
            ↔ ∃ t, t ∈ items ∧ has_font t = Ok true
                   ∧ lookup_font fontMap t = Ok x).
Proof.
  unfold searchTemplateDependencyFont, searchOldTemplateDependencyFont.
  split; intros -> H; by apply search_exact in H.
Qed.

Lemma dependent_fonts_exact_witness :
  NoDup [Some "arial.ttf"; None]
  ∧ ∀ x, x ∈ [Some "arial.ttf"; None]
         ↔ ∃ e, e ∈ text_element <$> ["Arial"; "ARIAL"; "Courier"]
                ∧ is_text_with_font e = Ok true
                ∧ lookup_font {[ "arial" := "arial.ttf" ]} e = Ok x.
Proof.
  apply (proj1 (dependent_fonts_exact {[ "arial" := "arial.ttf" ]}
                  (template_with ["Arial"; "ARIAL"; "Courier"])
                  (text_element <$> ["Arial"; "ARIAL"; "Courier"])
                  [Some "arial.ttf"; None])).
  - reflexivity.
  - vm_compute. reflexivity.
Defined.

(** ** Templates the search cannot read *)

Lemma get_ok (v : value) (k : string) :
  v ≠ VUndefined → v ≠ VNull → ∃ x, get v k = Ok x.
Proof. destruct v; simpl; eauto; done. Qed.

Lemma get_throws (v : value) (k : string) (e : error) :
  get v k = Throw e → e = ETypeError ∧ (v = VUndefined ∨ v = VNull).
Proof. destruct v; simpl; intros [= <-]; auto. Qed.

Lemma is_text_with_font_throws (e : value) (err : error) :
  is_text_with_font e = Throw err → err = ETypeError.
Proof.
  unfold is_text_with_font. destruct (get e "type") as [ty|err'] eqn:E.
  - simpl. destruct ty; try discriminate.
    destruct (String.eqb s "text"); [| discriminate].
    destruct (get e "font") as [f|err''] eqn:F; [discriminate |].
    simpl. intros [= <-]. by apply get_throws in F as [-> _].
  - simpl. intros [= <-]. by apply get_throws in E as [-> _].
Qed.

Lemma has_font_throws (t : value) (err : error) :
  has_font t = Throw err → err = ETypeError.
Proof.
  unfold has_font. destruct (get t "font") as [f|err'] eqn:F; [discriminate |].
  simpl. intros [= <-]. by apply get_throws in F as [-> _].
Qed.

Lemma lookup_font_throws (fontMap : gmap string string) (e : value)
    (err : error) :
  lookup_font fontMap e = Throw err → err = ETypeError.
Proof.
  unfold lookup_font. destruct (get e "font") as [f|err'] eqn:F.
  - simpl. destruct f; intros [= <-]; done.
  - simpl. intros [= <-]. by apply get_throws in F as [-> _].
Qed.

Lemma filterM_throws {A} (p : A → res bool) (l : list A) (err0 err : error) :
  (∀ x err', p x = Throw err' → err' = err0) →
  filterM p l = Throw err → err = err0.
Proof.
  intros Hp. induction l as [|x l IH]; simpl; [discriminate |].
  destruct (p x) as [b|err'] eqn:E; simpl.
  - destruct (filterM p l); simpl; [discriminate |]. intros [= <-]. by apply IH.
  - intros [= <-]. by apply Hp in E.
Qed.

Lemma allM_throws {A B} (f : A → res B) (l : list A) (err0 err : error) :
  (∀ x err', f x = Throw err' → err' = err0) →
  allM f l = Throw err → err = err0.
Proof.
  intros Hf. induction l as [|x l IH]; simpl; [discriminate |].
  destruct (f x) as [y|err'] eqn:E; simpl.
  - destruct (allM f l); simpl; [discriminate |]. intros [= <-]. by apply IH.
  - intros [= <-]. by apply Hf in E.
Qed.

Lemma filterM_fails {A} (p : A → res bool) (l : list A) (x : A) :
  x ∈ l → is_ok (p x) = false → is_ok (filterM p l) = false.
Proof.
  intros Hin Hx. induction l as [|y l IH]; [inversion Hin |].
  simpl. apply elem_of_cons in Hin as [<-|Hin].
  - by destruct (p x).
  - destruct (p y); [| done]. simpl.
    specialize (IH Hin). by destruct (filterM p l).
Qed.

Lemma search_throws (keep : value → res bool) (fontMap : gmap string string)
    (arr : value) (err : error) :
  (∀ x err', keep x = Throw err' → err' = ETypeError) →
  search keep fontMap arr = Throw err → err = ETypeError.
Proof.
  intros Hkeep. unfold search.
  destruct arr as [| | | | | |items|]; try (intros [= <-]; done); try discriminate.
  destruct (filterM keep items) as [kept|err'] eqn:E; simpl.
  - destruct (allM (lookup_font fontMap) kept) as [found|err''] eqn:F; simpl;
      [discriminate |].
    intros [= <-]. apply (allM_throws _ _ ETypeError) in F; [done |].
    apply lookup_font_throws.
  - intros [= <-]. by apply (filterM_throws _ _ ETypeError) in E.
Qed.

(** The shapes of [elements] the current-format search accepts and
    refuses.  A missing or null [elements] gives the empty list.  Any
    other value that is not an array, an array holding null, and a text
    element whose font is neither missing, empty nor a string all make the
    search throw a TypeError. *)
Theorem dependent_fonts_edge_cases (fontMap : gmap string string)
    (template elements : value) :
  get template "elements" = Ok elements →
  (elements = VUndefined ∨ elements = VNull →
   searchTemplateDependencyFont fontMap template = Ok [])
  ∧ (elements ≠ VUndefined → elements ≠ VNull →
     (∀ items, elements ≠ VArr items) →
     searchTemplateDependencyFont fontMap template = Throw ETypeError)
  ∧ (∀ items, elements = VArr items →
       VNull ∈ items ∨ VUndefined ∈ items →
       searchTemplateDependencyFont fontMap template = Throw ETypeError)
  ∧ (∀ items e font, elements = VArr items → e ∈ items →
       is_text_with_font e = Ok true →
       get e "font" = Ok font → (∀ s, font ≠ VStr s) →
       searchTemplateDependencyFont fontMap template = Throw ETypeError).
Proof.
  intros Hget. unfold searchTemplateDependencyFont. rewrite Hget. simpl.
  split; [| split; [| split]].
  - intros [->| ->]; reflexivity.
  - intros H1 H2 H3. destruct elements; try done. by destruct (H3 items).
  - intros items -> Hin.
    assert (is_ok (search is_text_with_font fontMap (VArr items)) = false) as Hf.
    { unfold search.
      assert (is_ok (filterM is_text_with_font items) = false) as Hf.
      { destruct Hin as [Hin|Hin];
          by apply (filterM_fails _ _ _ Hin). }
      by destruct (filterM is_text_with_font items). }
    apply is_ok_false in Hf as [err Hf]. rewrite Hf. f_equal.
    apply (search_throws _ _ _ _ is_text_with_font_throws Hf).
  - intros items e font -> Hin Hkeep Hfont Hstr.
    assert (is_ok (search is_text_with_font fontMap (VArr items)) = false) as Hf.
    { unfold search.
      destruct (filterM is_text_with_font items) as [kept|] eqn:E; [| done].
      simpl.
      assert (is_ok (allM (lookup_font fontMap) kept) = false) as Hf.
      { apply (allM_fails _ _ e).
        - by apply (filterM_ok _ _ _ E).
        - unfold lookup_font. rewrite Hfont. simpl.
          destruct font; try done. by destruct (Hstr s). }
      by destruct (allM (lookup_font fontMap) kept). }
    apply is_ok_false in Hf as [err Hf]. rewrite Hf. f_equal.
    apply (search_throws _ _ _ _ is_text_with_font_throws Hf).
Qed.

Lemma dependent_fonts_edge_cases_witness :
  searchTemplateDependencyFont ∅ (VObj [("elements", VNull)]) = Ok []
  ∧ searchTemplateDependencyFont ∅ (VObj [("elements", VStr "text")])
    = Throw ETypeError
  ∧ searchTemplateDependencyFont ∅
      (VObj [("elements", VArr [text_element "Arial"; VNull])])
    = Throw ETypeError
  ∧ searchTemplateDependencyFont ∅
      (VObj [("elements", VArr [VObj [("type", VStr "text"); ("font", VNum 7)]])])
    = Throw ETypeError.
Proof.
  split; [| split; [| split]].
  - apply (dependent_fonts_edge_cases ∅ (VObj [("elements", VNull)]) VNull
             eq_refl). by right.
  - apply (dependent_fonts_edge_cases ∅ (VObj [("elements", VStr "text")])
             (VStr "text") eq_refl); discriminate.
  - destruct (dependent_fonts_edge_cases ∅
                (VObj [("elements", VArr [text_element "Arial"; VNull])])
                (VArr [text_element "Arial"; VNull]) eq_refl)
      as (_ & _ & H & _).
    apply (H _ eq_refl). left. right. left.
  - destruct (dependent_fonts_edge_cases ∅
                (VObj [("elements",
                        VArr [VObj [("type", VStr "text"); ("font", VNum 7)]])])
                (VArr [VObj [("type", VStr "text"); ("font", VNum 7)]]) eq_refl)
      as (_ & _ & _ & H).
    apply (H _ (VObj [("type", VStr "text"); ("font", VNum 7)]) (VNum 7)
             eq_refl).
    + left.
    + reflexivity.
    + reflexivity.
    + discriminate.
Defined.

(** ** What a template entry says of its directory *)

Lemma readFileSync_ok (nd : node) (c : string) :
  readFileSync nd = Ok c → nd = File true c.
Proof. destruct nd as [[] c'|]; simpl; intros [= <-]; done. Qed.

Lemma assoc_walk (files : list (string * node)) (name content : string)
    (readable : bool) :
  assoc name files = Some (File readable content) →
  (name, content) ∈ walk files.
Proof.
  induction files as [|[n nd] files IH]; simpl; [discriminate |].
  destruct (String.eqb name n) eqn:E.
  - apply String.eqb_eq in E as ->. intros [= ->]. rewrite walk_file. left.
  - intros H. specialize (IH H). destruct nd as [r c|sub].
    + rewrite walk_file. by right.
    + rewrite walk_dir. apply elem_of_app. by right.
Qed.

Lemma total_size_elem (l : list (string * string)) (f : string * string) :
  f ∈ l → (stat_size f.2 ≤ total_size l)%N.
Proof.
  induction l as [|g l IH]; intros Hin; [inversion Hin |].
  unfold total_size in *. simpl.
  apply elem_of_cons in Hin as [->|Hin]; [lia |]. specialize (IH Hin). lia.
Qed.

Section TemplateHashes.
Variable md5_hex : string → string.
Variable JSON_parse : string → option value.
Variable eval_script : string → script_outcome.

Abbreviation templateOf' := (templateOf md5_hex JSON_parse eval_script).

Lemma hashes_eta (h : hashes) : Hashes (resource h) (hsize h) = h.
Proof. by destruct h. Qed.

Lemma require_ok (nd : node) (v : value) :
  require JSON_parse nd = Ok v → ∃ text, nd = File true text.
Proof.
  unfold require. intros H. apply bind_ok in H as (text & Hread & _).
  exists text. by apply readFileSync_ok.
Qed.

Lemma templateOf_definition (fontMap : gmap string string) (id : string)
    (nd : node) (t : template) :
  templateOf' fontMap (id, nd) = Ok (Some t) →
  ∃ files name content,
    nd = Dir files
    ∧ name ∈ [SCRIPT_NAME; TEMPLATE_NAME; OLD_TEMPLATE_NAME]
    ∧ assoc name files = Some (File true content)
    ∧ filesMd5 md5_hex files = Ok (Hashes (t_resource t) (t_size t)).
Proof.
  unfold templateOf. destruct nd as [|files]; [discriminate |].
  destruct (assoc SCRIPT_NAME files) as [script|] eqn:Es.
  { unfold scriptTemplate. intros H.
    apply bind_ok in H as (src & Hread & H).
    apply readFileSync_ok in Hread as ->.
    destruct (eval_script src) as [|writes]; [discriminate |].
    destruct (negb _); [discriminate |].
    apply bind_ok in H as (h & Hh & H). injection H as <-.
    exists files, SCRIPT_NAME, src. cbn [t_resource t_size].
    rewrite hashes_eta. split; [done |]. split; [left | done]. }
  destruct (assoc TEMPLATE_NAME files) as [file|] eqn:Et.
  { unfold jsonTemplate. intros H.
    apply bind_ok in H as (template & Hreq & H).
    apply require_ok in Hreq as [text ->].
    apply bind_ok in H as (metadata & _ & H).
    apply bind_ok in H as (h & Hh & H). apply bind_ok in H as (deps & _ & H).
    injection H as <-.
    exists files, TEMPLATE_NAME, text. cbn [t_resource t_size].
    rewrite hashes_eta. split; [done |]. split; [right; left | done]. }
  destruct (assoc OLD_TEMPLATE_NAME files) as [file|] eqn:Eo; [| discriminate].
  unfold oldJsonTemplate. intros H.
  apply bind_ok in H as (template & Hreq & H).
  apply require_ok in Hreq as [text ->].
  apply bind_ok in H as (alias & _ & H).
  apply bind_ok in H as (inRandomList & _ & H).
  apply bind_ok in H as (hidden & _ & H).
  apply bind_ok in H as (h & Hh & H). apply bind_ok in H as (deps & _ & H).
  injection H as <-.
  exists files, OLD_TEMPLATE_NAME, text. cbn [t_resource t_size].
  rewrite hashes_eta. split; [done |]. split; [do 2 right; left | done].
Qed.

(** An entry of the templates directory that yields a template is a
    directory holding a readable main.js, template.json or data.json, and
    the template's resource map and size are those filesMd5 returns for
    the whole directory, the definition file included.  On a directory as
    a file system lists it the map therefore has exactly one digest per
    file below the directory, the definition file is among them, and the
    size is the sum of the file sizes. *)
Theorem template_hashes_its_directory (fontMap : gmap string string)
    (id : string) (nd : node) (t : template) :
  templateOf' fontMap (id, nd) = Ok (Some t) →
  ∃ files name content,
    nd = Dir files
    ∧ name ∈ [SCRIPT_NAME; TEMPLATE_NAME; OLD_TEMPLATE_NAME]
    ∧ assoc name files = Some (File true content)
    ∧ filesMd5 md5_hex files = Ok (Hashes (t_resource t) (t_size t))
    ∧ (ordinary files →
       (∀ p d, t_resource t !! p = Some d
               ↔ ∃ c, (p, c) ∈ walk files ∧ d = md5_hex c)
       ∧ t_resource t !! name = Some (md5_hex content)
       ∧ t_size t = total_size (walk files)
       ∧ (stat_size content ≤ t_size t)%N).
Proof.
  intros H. apply templateOf_definition in H
    as (files & name & content & -> & Hname & Hassoc & Hh).
  exists files, name, content. do 4 (split; [done |]).
  intros Hord. rewrite filesMd5_unfold in Hh.
  destruct (forEach_ordinary md5_hex files Hord (Hashes ∅ 0))
    as (h & Hh' & Hres & Hsize).
  rewrite Hh in Hh'. injection Hh' as <-.
  cbn [resource hsize] in Hres, Hsize. rewrite (right_id ∅ (∪)) in Hres.
  pose proof (walk_NoDup files Hord) as Hnd.
  pose proof (assoc_walk _ _ _ _ Hassoc) as Hin.
  assert (∀ p d, t_resource t !! p = Some d
                 ↔ ∃ c, (p, c) ∈ walk files ∧ d = md5_hex c) as Hlook.
  { intros p d. rewrite Hres. unfold expected.
    rewrite <- elem_of_list_to_map by (by rewrite digest_keys).
    rewrite list_elem_of_fmap. split.
    - intros ([q c] & [= -> ->] & Hq). eauto.
    - intros (c & Hq & ->). by exists (p, c). }
  split; [done |]. split; [apply Hlook; eauto |].
  split; [rewrite Hsize; lia |].
  rewrite Hsize. apply (total_size_elem _ _ Hin).
Qed.

End TemplateHashes.

Lemma template_hashes_its_directory_witness :
  ∃ t, templateOf (λ s, s) sample_parse sample_eval ∅ foo_template = Ok (Some t)
    ∧ t_resource t !! "template.json" = Some "{}"
    ∧ t_resource t !! "a.png" = Some "png"
    ∧ t_size t = 5%N.
Proof.
  destruct (templateOf (λ s, s) sample_parse sample_eval ∅ foo_template)
    as [[t|]|e] eqn:E; [| vm_compute in E; discriminate..].
  exists t. split; [reflexivity |].
  destruct (template_hashes_its_directory (λ s, s) sample_parse sample_eval ∅
              "foo" (foo_template.2) t E)
    as (files & name & content & Hdir & _ & _ & _ & Hord).
  injection Hdir as <-.
  destruct Hord as (Hlook & _ & Hsize & _).
  { apply ordinary_file; [reflexivity | discriminate | |].
    { apply (bool_decide_unpack _). vm_compute. exact I. }
    apply ordinary_file;
      [reflexivity | discriminate | apply not_elem_of_nil | constructor]. }
  split; [| split].
  - apply Hlook. exists "{}". split; [left | reflexivity].
  - apply Hlook. exists "png". split; [right; left | reflexivity].
  - exact Hsize.
Defined.

(** ** The names a font is indexed under *)

Lemma uniq_from_length {A} `{EqDecision A} (seen l : list A) :
  (List.length (uniq_from seen l) ≤ List.length l)%nat.
Proof.
  revert seen. induction l as [|x l IH]; intros seen; simpl; [lia |].
  destruct (decide (x ∈ seen)).
  - specialize (IH seen). lia.
  - specialize (IH (x :: seen)). simpl. lia.
Qed.

Lemma uniq_head {A} `{EqDecision A} (x : A) (l : list A) :
  head (uniq (x :: l)) = Some x.
Proof.
  unfold uniq. simpl. destruct (decide (x ∈ [])) as [Hin|_]; [| done].
  inversion Hin.
Qed.

Section FontNames.
Variable fontkit_open : string → option Font.

(** Whenever getFontInfo returns, the file was readable, fontkit opened
    it and found all four names; the list returned starts with the
    lower-cased family name, has between one and four names, holds no
    name twice, and every name in it is in lower case already (lower-casing
    it again changes nothing). *)
Theorem getFontInfo_result (nd : node) (names : list string) :
  getFontInfo fontkit_open nd = Ok names →
  ∃ bytes font family,
    nd = File true bytes
    ∧ fontkit_open bytes = Some font
    ∧ familyName font = Some family
    ∧ head names = Some (toLowerCase family)
    ∧ (1 ≤ List.length names ≤ 4)%nat
    ∧ NoDup names
    ∧ ∀ n, n ∈ names → toLowerCase n = n.
Proof.
  unfold getFontInfo. intros H. apply bind_ok in H as (bytes & Hread & H).
  apply readFileSync_ok in Hread as ->.
  destruct (fontkit_open bytes) as [font|] eqn:Hopen; [| discriminate].
  simpl in H. apply bind_ok in H as (lowered & Hl & H). injection H as <-.
  destruct font as [[a|] [b|] [c|] [d|]]; try discriminate.
  change (allM name_toLowerCase [Some a; Some b; Some c; Some d] = Ok lowered)
    in Hl.
  rewrite name_toLowerCase_all in Hl. injection Hl as <-.
  exists bytes, (Build_Font (Some a) (Some b) (Some c) (Some d)), a.
  do 3 (split; [done |]). split; [apply uniq_head |].
  split; [| split; [apply NoDup_uniq |]].
  - split.
    + pose proof (uniq_head (toLowerCase a) (toLowerCase <$> [b; c; d])) as Hh.
      change (toLowerCase a :: (toLowerCase <$> [b; c; d]))
        with (toLowerCase <$> [a; b; c; d]) in Hh.
      destruct (uniq _); [discriminate | simpl; lia].
    + unfold uniq. etrans; [apply uniq_from_length |]. simpl. lia.
  - intros n Hn. rewrite elem_of_uniq in Hn.
    repeat (apply elem_of_cons in Hn as [->|Hn]; [apply toLowerCase_idemp |]).
    inversion Hn.
Qed.

End FontNames.

Lemma getFontInfo_result_witness :
  ∃ names, getFontInfo sample_fontkit (File true "ttf:arial") = Ok names
    ∧ head names = Some "arial"
    ∧ (1 ≤ List.length names ≤ 4)%nat
    ∧ NoDup names.
Proof.
  eexists. split; [reflexivity |].
  destruct (getFontInfo_result sample_fontkit (File true "ttf:arial") _ eq_refl)
    as (bytes & font & family & Hnd & Hopen & Hfam & Hhead & Hlen & Hnodup & _).
  split; [| split; [exact Hlen | exact Hnodup]].
  reflexivity.
Defined.

(** ** Missing directories *)

Section MissingDirectory.
Variable md5_hex : string → string.
Variable fontkit_open : string → option Font.
Variable rootDir : string.
Variable JSON_parse : string → option value.
Variable eval_script : string → script_outcome.
Variable write_error : string → option error.

Abbreviation buildOld := (buildOldTemplateIndex rootDir JSON_parse).
Abbreviation build :=
  (buildTemplateIndex md5_hex fontkit_open rootDir JSON_parse eval_script).
Abbreviation main' :=
  (main md5_hex fontkit_open rootDir JSON_parse eval_script write_error).

(** Both builders list both directories, so when the templates directory
    or the fonts directory does not exist each builder fails, whatever
    the other directory holds, and the run ends with an error and
    nothing written; when it is the templates directory that is missing,
    the error is the ENOENT of the legacy builder's first listing. *)
Theorem missing_directory_blocks_run (config : Config) (w : world)
    (disk : gmap string document) :
  templatesDir w = None ∨ fontsDir w = None →
  is_ok (buildOld config w) = false
  ∧ is_ok (build config w) = false
  ∧ ∃ e, main' config w disk = (Throw e, disk)
         ∧ (templatesDir w = None → e = EIO "ENOENT").
Proof.
  intros Hmiss.
  assert (is_ok (buildOld config w) = false) as Hold.
  { unfold buildOldTemplateIndex.
    destruct (templatesDir w) as [entries|]; [| done]. simpl.
    destruct (oldTemplates _ _ _) as [r|]; [| done]. simpl.
    destruct Hmiss as [Hmiss|Hmiss]; [done |]. by rewrite Hmiss. }
  split; [done |]. split.
  - unfold buildTemplateIndex.
    destruct (fontsDir w) as [fontFiles|]; [| done]. simpl.
    destruct (forEachM _ _ _) as [st|]; [| done]. simpl.
    destruct Hmiss as [Hmiss|Hmiss]; [| done]. by rewrite Hmiss.
  - unfold main. destruct (buildOldTemplateIndex _ _ _ _) as [old|e] eqn:E;
      [done |].
    exists e. split; [done |]. intros Hdir.
    unfold buildOldTemplateIndex in E. rewrite Hdir in E. simpl in E. congruence.
Qed.

End MissingDirectory.

Lemma missing_directory_blocks_run_witness :
  is_ok (sample_build {| templatesDir := Some [foo_template];
                         fontsDir := None |}) = false
  ∧ ∃ e, sample_main {| templatesDir := None; fontsDir := Some [] |} ∅
         = (Throw e, ∅)
      ∧ e = EIO "ENOENT".
Proof.
  split.
  - apply (missing_directory_blocks_run (λ s, s) (λ _, None) "/repo"
             sample_parse sample_eval (λ _, None) sample_config
             {| templatesDir := Some [foo_template]; fontsDir := None |} ∅).
    by right.
  - destruct (missing_directory_blocks_run (λ s, s) (λ _, None) "/repo"
                sample_parse sample_eval (λ _, None) sample_config
                {| templatesDir := None; fontsDir := Some [] |} ∅)
      as (_ & _ & e & He & Herr); [by left |].
    exists e. split; [exact He | by apply Herr].
Defined.
